(** * podman search: the multi-registry search aggregator

    A shallow embedding of [cmd/podman/search.go]: filter parsing
    ([parseSearchFilter]), the three filter predicates, and the aggregation
    loop ([getSearchOutput]) with its caller [generateSearchOutput]; then
    the command around them ([searchCmd], [genSearchFormat],
    [getRegistries]) and [stop] of podman machine.

    Conventions.
    - Go's [int] is the 64-bit signed integer; it is modelled as [Z].  The
      program only compares and copies such values (the one loop counter is
      bounded by a slice length), so no wrap-around can occur; the range
      matters in [strconv.Atoi] only, where it is written out.
    - A Go [string] is a sequence of bytes: it is modelled as [string], one
      [ascii] per byte, and [len] counts bytes.
    - A [*bool] that is either [nil] or points to one of the two never
      mutated locals [ptrTrue]/[ptrFalse] is modelled as [option bool].
    - A run-time panic (slice index out of range) is an explicit outcome. *)

From Stdlib Require Import ZArith List String Ascii Bool Lia.
Import ListNotations.

Local Open Scope string_scope.
Local Open Scope list_scope.
Local Open Scope Z_scope.

(** ** Outcomes of a Go function body: it returns, or it panics. *)

Inductive run (A : Type) : Type :=
| Panicked : run A
| Returned : A -> run A.

Arguments Panicked {A}.
Arguments Returned {A} _.

Definition run_bind {A B : Type} (m : run A) (k : A -> run B) : run B :=
  match m with
  | Panicked => Panicked
  | Returned a => k a
  end.

Notation "x <- m ;; k" := (run_bind m (fun x => k))
  (at level 61, m at next level, right associativity).

(** [len] of a slice and of a string, as Go's [int]. *)
Definition len {A : Type} (l : list A) : Z := Z.of_nat (List.length l).
Definition slen (s : string) : Z := Z.of_nat (String.length s).

(** ** The parts of Go's standard library the program calls *)

Module strings.

(** [strings.Split(s, sep)] for a one-byte separator: [s] is cut at every
    occurrence of the separator; the result is never empty. *)
Fixpoint Split (s : string) (sep : ascii) : list string :=
  match s with
  | EmptyString => [EmptyString]
  | String c s' =>
      if Ascii.eqb c sep then EmptyString :: Split s' sep
      else match Split s' sep with
           | [] => [String c EmptyString]
           | w :: ws => String c w :: ws
           end
  end.

(** [strings.Join(elems, sep)]. *)
Definition Join (elems : list string) (sep : string) : string :=
  String.concat sep elems.

(** [strings.Contains(s, substr)] for a one-byte [substr]. *)
Fixpoint Contains (s : string) (c : ascii) : bool :=
  match s with
  | EmptyString => false
  | String a s' => Ascii.eqb a c || Contains s' c
  end.

(** [strings.Replace(s, old, new, -1)] for one-byte [old] and [new]: every
    occurrence is replaced. *)
Fixpoint Replace (s : string) (old new : ascii) : string :=
  match s with
  | EmptyString => EmptyString
  | String a s' =>
      String (if Ascii.eqb a old then new else a) (Replace s' old new)
  end.

(** The slice expression [s[:n]] for [0 <= n <= len(s)]. *)
Fixpoint prefix (n : nat) (s : string) : string :=
  match n, s with
  | S n', String a s' => String a (prefix n' s')
  | _, _ => EmptyString
  end.

(** [strings.Replace(s, old, new, -1)] for a two-byte [old] and a one-byte
    [new]: the occurrences are found from the left and do not overlap. *)
Fixpoint ReplacePair (s : string) (old1 old2 new : ascii) : string :=
  match s with
  | EmptyString => EmptyString
  | String a s' =>
      match s' with
      | EmptyString => String a EmptyString
      | String b s'' =>
          if Ascii.eqb a old1 && Ascii.eqb b old2
          then String new (ReplacePair s'' old1 old2 new)
          else String a (ReplacePair s' old1 old2 new)
      end
  end.

(** The slice expression [s[n:]]; out of range ([n > len(s)]) it panics,
    which is [None] here. *)
Fixpoint suffixFrom (n : nat) (s : string) : option string :=
  match n, s with
  | O, _ => Some s
  | S n', String _ s' => suffixFrom n' s'
  | S _, EmptyString => None
  end.

End strings.

Module strconv.

Inductive NumError : Type :=
| ErrSyntax
| ErrRange.

Definition maxUint64 : Z := 2 ^ 64 - 1.
Definition maxInt : Z := 2 ^ 63 - 1.
Definition minInt : Z := - 2 ^ 63.

Definition digit (c : ascii) : option Z :=
  let n := Z.of_N (N_of_ascii c) in
  if (48 <=? n) && (n <=? 57) then Some (n - 48) else None.

(** The digit loop of [ParseUint(s, 10, 64)]: a byte that is not a decimal
    digit is a syntax error, a value that leaves 64 bits a range error,
    whichever comes first. *)
Fixpoint parseDigits (s : string) (n : Z) : Z + NumError :=
  match s with
  | EmptyString => inl n
  | String c s' =>
      match digit c with
      | None => inr ErrSyntax
      | Some d =>
          if maxUint64 / 10 + 1 <=? n then inr ErrRange
          else
            let n1 := n * 10 + d in
            if maxUint64 <? n1 then inr ErrRange
            else parseDigits s' n1
      end
  end.

(** [strconv.Atoi(s)]: an optional sign, then at least one decimal digit,
    the value within the 64-bit signed range. *)
Definition Atoi (s : string) : Z + NumError :=
  match s with
  | EmptyString => inr ErrSyntax
  | String c t =>
      let neg := Ascii.eqb c "-" in
      let body := if neg || Ascii.eqb c "+" then t else s in
      match body with
      | EmptyString => inr ErrSyntax
      | _ =>
          match parseDigits body 0 with
          | inr e => inr e
          | inl un =>
              if negb neg && (maxInt <? un) then inr ErrRange
              else if neg && (- minInt <? un) then inr ErrRange
              else inl (if neg then - un else un)
          end
      end
  end.

End strconv.

(** ** Data model *)

Definition descriptionTruncLength : Z := 44.
Definition maxQueries : Z := 25.

Module docker.

(** [docker.SearchResult] of containers/image, with the fields the
    program reads. *)
Record SearchResult : Type := {
  Name : string;
  Description : string;
  StarCount : Z;
  IsOfficial : bool;
  IsAutomated : bool
}.

End docker.

Module types.

Inductive OptionalBool : Type :=
| OptionalBoolUndefined
| OptionalBoolTrue
| OptionalBoolFalse.

End types.

Record searchParams : Type := {
  Index : string;
  Name : string;
  Description : string;
  Stars : Z;
  Official : string;
  Automated : string
}.

Record searchOpts : Type := {
  filter : list string;
  limit : Z;
  noTrunc : bool;
  format : string;
  authfile : string;
  insecureSkipTLSVerify : types.OptionalBool
}.

Record searchFilterParams : Type := {
  stars : Z;
  isAutomated : option bool;
  isOfficial : option bool
}.

(** The errors the program builds or passes on. *)
Inductive error : Type :=
| ErrInvalidStars (expr : string)
| ErrStarsValue (cause : strconv.NumError)
| ErrInvalidFilterType (expr : string)
| ErrRegistry (msg : string)
| ErrRender (msg : string).

(** ** Filter parsing *)

(** The zero value [&searchFilterParams{}]. *)
Definition emptyFilterParams : searchFilterParams :=
  {| stars := 0; isAutomated := None; isOfficial := None |}.

Definition set_stars (v : Z) (fp : searchFilterParams) : searchFilterParams :=
  {| stars := v; isAutomated := isAutomated fp; isOfficial := isOfficial fp |}.

Definition set_isAutomated (b : bool) (fp : searchFilterParams)
  : searchFilterParams :=
  {| stars := stars fp; isAutomated := Some b; isOfficial := isOfficial fp |}.

Definition set_isOfficial (b : bool) (fp : searchFilterParams)
  : searchFilterParams :=
  {| stars := stars fp; isAutomated := isAutomated fp; isOfficial := Some b |}.

(** [len(arr) == 2 && arr[1] == "false"]. *)
Definition isFalseValue (arr : list string) : bool :=
  match arr with
  | [_; v] => String.eqb v "false"
  | _ => false
  end.

(** One iteration of the loop of [parseSearchFilter]: the [switch] on
    [arr[0]].  [inr] is the early [return nil, err]. *)
Definition parseOne (expr : string) (filterParams : searchFilterParams)
  : run (searchFilterParams + error) :=
  let arr := strings.Split expr "=" in
  match arr with
  | [] => Panicked
  | key :: rest =>
      if String.eqb key "stars" then
        match rest with
        | [] => Returned (inr (ErrInvalidStars expr))
        | v :: _ =>
            match strconv.Atoi v with
            | inr e => Returned (inr (ErrStarsValue e))
            | inl n => Returned (inl (set_stars n filterParams))
            end
        end
      else if String.eqb key "is-automated" then
        Returned (inl (set_isAutomated (negb (isFalseValue arr)) filterParams))
      else if String.eqb key "is-official" then
        Returned (inl (set_isOfficial (negb (isFalseValue arr)) filterParams))
      else Returned (inr (ErrInvalidFilterType expr))
  end.

Fixpoint parseLoop (exprs : list string) (filterParams : searchFilterParams)
  : run (searchFilterParams + error) :=
  match exprs with
  | [] => Returned (inl filterParams)
  | expr :: exprs' =>
      r <- parseOne expr filterParams ;;
      match r with
      | inr e => Returned (inr e)
      | inl filterParams' => parseLoop exprs' filterParams'
      end
  end.

Definition parseSearchFilter (opts : searchOpts)
  : run (searchFilterParams + error) :=
  parseLoop (filter opts) emptyFilterParams.

(** ** Filter predicates *)

Definition matchesStarFilter (flt : searchFilterParams)
  (result : docker.SearchResult) : bool :=
  stars flt <=? docker.StarCount result.

Definition matchesAutomatedFilter (flt : searchFilterParams)
  (result : docker.SearchResult) : bool :=
  match isAutomated flt with
  | Some b => Bool.eqb (docker.IsAutomated result) b
  | None => true
  end.

Definition matchesOfficialFilter (flt : searchFilterParams)
  (result : docker.SearchResult) : bool :=
  match isOfficial flt with
  | Some b => Bool.eqb (docker.IsOfficial result) b
  | None => true
  end.

(** The condition of line 204, without its negation. *)
Definition matches (flt : searchFilterParams) (result : docker.SearchResult)
  : bool :=
  matchesAutomatedFilter flt result
  && matchesOfficialFilter flt result
  && matchesStarFilter flt result.

(** ** Projection of a raw result (lines 184-188 and 208-231) *)

(** The index label of a registry host. *)
Definition indexOf (reg : string) : string :=
  let arr := strings.Split reg "." in
  if 2 <? len arr
  then strings.Join (skipn (List.length arr - 2) arr) "."
  else reg.

Definition marker (b : bool) : string := if b then "[OK]" else "".

Definition describe (opts : searchOpts) (raw : string) : string :=
  let description := strings.Replace raw "010" " " in
  if (44 <? slen description) && negb (noTrunc opts)
  then (strings.prefix (Z.to_nat descriptionTruncLength) description
        ++ "...")%string
  else description.

Definition qualify (reg index name : string) : string :=
  if String.eqb index "docker.io" && negb (strings.Contains name "/")
  then (index ++ "/library/" ++ name)%string
  else (reg ++ "/" ++ name)%string.

Definition project (opts : searchOpts) (reg index : string)
  (result : docker.SearchResult) : searchParams :=
  {| Index := index;
     Name := qualify reg index (docker.Name result);
     Description := describe opts (docker.Description result);
     Stars := docker.StarCount result;
     Official := marker (docker.IsOfficial result);
     Automated := marker (docker.IsAutomated result) |}.

(** ** The aggregation loop *)

(** The limit handed to [docker.SearchRegistry] (lines 169-172). *)
Definition queryLimit (opts : searchOpts) : Z :=
  if limit opts =? 0 then maxQueries else limit opts.

(** The inner [limit] (lines 193-199). *)
Definition resultLimit (opts : searchOpts)
  (results : list docker.SearchResult) : Z :=
  let limit0 := maxQueries in
  let limit1 := if len results <? limit0 then len results else limit0 in
  if negb (limit opts =? 0) && (limit opts <? len results)
  then limit opts
  else limit1.

(** Lines 202-207: a result is kept unless filter expressions were given and
    it fails one of the three predicates. *)
Definition accepted (opts : searchOpts) (flt : searchFilterParams)
  (result : docker.SearchResult) : bool :=
  if 0 <? len (filter opts) then matches flt result else true.

(** The loop [for i := 0; i < limit; i++] from index [i] on, with [n]
    iterations left; [results[i]] panics out of range. *)
Fixpoint resultLoop (opts : searchOpts) (flt : searchFilterParams)
  (reg index : string) (results : list docker.SearchResult)
  (n i : nat) (paramsArr : list searchParams) : run (list searchParams) :=
  match n with
  | O => Returned paramsArr
  | S n' =>
      match nth_error results i with
      | None => Panicked
      | Some result =>
          resultLoop opts flt reg index results n' (S i)
            (if accepted opts flt result
             then paramsArr ++ [project opts reg index result]
             else paramsArr)
      end
  end.

(** What the function does to the outside: registry queries and logged
    errors, in order. *)
Inductive event : Type :=
| EvQuery (reg term : string) (lim : Z)
| EvLogError (reg : string) (e : error).

Record aggState : Type := {
  paramsArr : list searchParams;
  trace : list event
}.

Record searchOutput : Type := {
  records : list searchParams;
  err : option error;
  events : list event
}.

Section Aggregator.

(** [docker.SearchRegistry], the registry client: its answer to the
    [k]-th query of a run (counting from 0).  The system context [sc] is
    the same for every query of a run. *)
Variable SearchRegistry :
  nat -> string -> string -> Z -> list docker.SearchResult + error.

(** [formats.Writer(out).Out()], the renderer, given the template and the
    records. *)
Variable Out : string -> list searchParams -> option error.

(** The loop over [registries]; [k] queries have been issued so far. *)
Fixpoint registryLoop (term : string) (registries : list string)
  (opts : searchOpts) (flt : searchFilterParams) (lim : Z)
  (k : nat) (st : aggState) : run aggState :=
  match registries with
  | [] => Returned st
  | reg :: registries' =>
      let queried := trace st ++ [EvQuery reg term lim] in
      match SearchRegistry k reg term lim with
      | inr e =>
          registryLoop term registries' opts flt lim (S k)
            {| paramsArr := paramsArr st;
               trace := queried ++ [EvLogError reg e] |}
      | inl results =>
          let index := indexOf reg in
          let limit' := resultLimit opts results in
          arr <- resultLoop opts flt reg index results
                   (Z.to_nat limit') 0 (paramsArr st) ;;
          registryLoop term registries' opts flt lim (S k)
            {| paramsArr := arr; trace := queried |}
      end
  end.

Definition getSearchOutput (term : string) (registries : list string)
  (opts : searchOpts) (flt : searchFilterParams) : run searchOutput :=
  st <- registryLoop term registries opts flt (queryLimit opts) 0
          {| paramsArr := []; trace := [] |} ;;
  Returned {| records := paramsArr st; err := None; events := trace st |}.

Definition generateSearchOutput (term : string) (registries : list string)
  (opts : searchOpts) (flt : searchFilterParams) : run (option error) :=
  out <- getSearchOutput term registries opts flt ;;
  match err out with
  | Some e => Returned (Some e)
  | None =>
      if len (records out) =? 0 then Returned None
      else Returned (Out (format opts) (records out))
  end.

End Aggregator.

(** ** The command around the aggregation (lines 81-131 and 152-165) *)

Module cliconfig.

(** [cliconfig.SearchValues], with what [searchCmd] reads of it;
    [TlsVerifyChanged] is [c.Flag("tls-verify").Changed]. *)
Record SearchValues : Type := {
  InputArgs : list string;
  Authfile : string;
  Filter : list string;
  Format : string;
  Limit : Z;
  NoTrunc : bool;
  TlsVerify : bool;
  TlsVerifyChanged : bool
}.

End cliconfig.

(** [types.NewOptionalBool]. *)
Definition NewOptionalBool (b : bool) : types.OptionalBool :=
  if b then types.OptionalBoolTrue else types.OptionalBoolFalse.

(** The errors of [searchCmd]: its own two, the wrapped errors of the
    registry configuration, and the errors of the search passed on. *)
Inductive cmdError : Type :=
| ErrTooManyArguments
| ErrNoArgument
| ErrGettingRegistry (term : string) (cause : error)
| ErrGettingRegistries (cause : error)
| ErrSearch (e : error).

Definition tab : string := String "009" EmptyString.

(** The default template of line 130. *)
Definition defaultFormat : string :=
  ("table {{.Index}}" ++ tab ++ "{{.Name}}" ++ tab ++ "{{.Description}}"
   ++ tab ++ "{{.Stars}}" ++ tab ++ "{{.Official}}" ++ tab
   ++ "{{.Automated}}" ++ tab)%string.

Definition genSearchFormat (format : string) : string :=
  if negb (String.eqb format "")
  then strings.ReplacePair format "\" "t" "009"
  else defaultFormat.

Section Command.

(** [sysreg.GetRegistry] and [sysreg.GetRegistries], the registry
    configuration; [getAuthFile]; the registry client and the renderer as
    for the aggregation. *)
Variable GetRegistry : string -> string + error.
Variable GetRegistries : list string + error.
Variable getAuthFile : string -> string.
Variable SearchRegistry :
  nat -> string -> string -> Z -> list docker.SearchResult + error.
Variable Out : string -> list searchParams -> option error.

Definition getRegistries (registry : string) : list string + cmdError :=
  if negb (String.eqb registry "")
  then inl [registry]
  else match GetRegistries with
       | inl registries => inl registries
       | inr e => inr (ErrGettingRegistries e)
       end.

(** The [searchOpts] of lines 100-110. *)
Definition searchOptsOf (c : cliconfig.SearchValues) : searchOpts :=
  {| format := genSearchFormat (cliconfig.Format c);
     noTrunc := cliconfig.NoTrunc c;
     limit := cliconfig.Limit c;
     filter := cliconfig.Filter c;
     authfile := getAuthFile (cliconfig.Authfile c);
     insecureSkipTLSVerify :=
       if cliconfig.TlsVerifyChanged c
       then NewOptionalBool (negb (cliconfig.TlsVerify c))
       else types.OptionalBoolUndefined |}.

Definition searchCmd (c : cliconfig.SearchValues) : run (option cmdError) :=
  let args := cliconfig.InputArgs c in
  if 1 <? len args then Returned (Some ErrTooManyArguments)
  else if len args =? 0 then Returned (Some ErrNoArgument)
  else
    match args with
    | [] => Panicked
    | term0 :: _ =>
        match GetRegistry term0 with
        | inr e => Returned (Some (ErrGettingRegistry term0 e))
        | inl registry =>
            term <- (if negb (String.eqb registry "")
                     then match strings.suffixFrom
                                  (S (String.length registry)) term0 with
                          | Some t => Returned t
                          | None => Panicked
                          end
                     else Returned term0) ;;
            let opts := searchOptsOf c in
            match getRegistries registry with
            | inr e => Returned (Some e)
            | inl registries =>
                parsed <- parseSearchFilter opts ;;
                match parsed with
                | inr e => Returned (Some (ErrSearch e))
                | inl flt =>
                    e <- generateSearchOutput SearchRegistry Out
                           term registries opts flt ;;
                    Returned (option_map ErrSearch e)
                end
            end
        end
    end.

End Command.

(** ** podman machine stop (the second source file) *)

Module machine.

(** What [stop] does to the outside, in order. *)
Inductive event : Type :=
| EvLoadVMByName (name : string)
| EvStop (name : string)
| EvPrintStopped (name : string).

Section Stop.

(** [defaultMachineName] is declared elsewhere in the package;
    [LoadVMByName] is the method of the system default provider and [Stop]
    the method of the machine it returns. *)
Variable defaultMachineName : string.
Variables VM Err : Type.
Variable LoadVMByName : string -> VM + Err.
Variable Stop : VM -> string -> option Err.

(** Lines 39-42. *)
Definition vmNameOf (args : list string) : string :=
  match args with
  | arg :: _ => if 0 <? slen arg then arg else defaultMachineName
  | [] => defaultMachineName
  end.

Definition stop (args : list string) : option Err * list event :=
  let vmName := vmNameOf args in
  match LoadVMByName vmName with
  | inr e => (Some e, [EvLoadVMByName vmName])
  | inl vm =>
      match Stop vm vmName with
      | Some e => (Some e, [EvLoadVMByName vmName; EvStop vmName])
      | None =>
          (None,
           [EvLoadVMByName vmName; EvStop vmName; EvPrintStopped vmName])
      end
  end.

End Stop.

End machine.

(** * Vocabulary of the statements, and sample data *)

(** A raw result with the given name and star count. *)
Definition sampleResult (name : string) (n : Z) : docker.SearchResult :=
  {| docker.Name := name;
     docker.Description := "a sample image";
     docker.StarCount := n;
     docker.IsOfficial := false;
     docker.IsAutomated := true |}.

(** A value is numeric when it is an optional sign followed by at least
    one decimal digit. *)
Fixpoint allDigits (s : string) : bool :=
  match s with
  | EmptyString => true
  | String c s' =>
      match strconv.digit c with
      | Some _ => allDigits s'
      | None => false
      end
  end.

Definition unsignedPart (s : string) : string :=
  match s with
  | EmptyString => EmptyString
  | String c t => if Ascii.eqb c "-" || Ascii.eqb c "+" then t else s
  end.

Definition isNumeric (s : string) : bool :=
  negb (String.eqb (unsignedPart s) "") && allDigits (unsignedPart s).

(** Options as the command line gives them: the filter expressions, the
    limit and the no-trunc flag; the other fields at their defaults. *)
Definition optionsOf (exprs : list string) (lim : Z) (noTrunc : bool)
  : searchOpts :=
  {| filter := exprs;
     limit := lim;
     noTrunc := noTrunc;
     format := "";
     authfile := "";
     insecureSkipTLSVerify := types.OptionalBoolUndefined |}.

(** The three recognized keys, and the value a filter set holds for each. *)
Inductive filterKey : Type :=
| KeyStars
| KeyAutomated
| KeyOfficial.

Definition keyName (k : filterKey) : string :=
  match k with
  | KeyStars => "stars"
  | KeyAutomated => "is-automated"
  | KeyOfficial => "is-official"
  end.

Inductive filterValue : Type :=
| StarsValue (n : Z)
| FlagValue (b : option bool).

Definition fieldOf (k : filterKey) (fp : searchFilterParams) : filterValue :=
  match k with
  | KeyStars => StarsValue (stars fp)
  | KeyAutomated => FlagValue (isAutomated fp)
  | KeyOfficial => FlagValue (isOfficial fp)
  end.

(** [arr[0]] for the expression. *)
Definition exprKey (expr : string) : string :=
  hd "" (strings.Split expr "=").

(** The records one registry contributes: the first [resultLimit] raw
    results, those accepted, projected, in the order returned. *)
Definition registryRecords (opts : searchOpts) (flt : searchFilterParams)
  (reg : string) (results : list docker.SearchResult) : list searchParams :=
  map (project opts reg (indexOf reg))
    (List.filter (accepted opts flt)
       (firstn (Z.to_nat (resultLimit opts results)) results)).

(** The registry queries of a trace. *)
Fixpoint queriesOf (evs : list event) : list (string * string * Z) :=
  match evs with
  | [] => []
  | EvQuery reg term lim :: evs' => (reg, term, lim) :: queriesOf evs'
  | EvLogError _ _ :: evs' => queriesOf evs'
  end.

(** A registry client that answers every query with the same results. *)
Definition answering (results : list docker.SearchResult)
  : nat -> string -> string -> Z -> list docker.SearchResult + error :=
  fun _ _ _ _ => inl results.

(** A registry client whose first query fails and whose later queries
    answer with the given results. *)
Definition firstFails (results : list docker.SearchResult)
  : nat -> string -> string -> Z -> list docker.SearchResult + error :=
  fun k _ _ _ =>
    match k with
    | O => inr (ErrRegistry "connection refused")
    | S _ => inl results
    end.

(** Ten raw results, by decreasing star count. *)
Definition tenResults : list docker.SearchResult :=
  map (fun n => sampleResult "alpine" n) [10; 9; 8; 7; 6; 5; 4; 3; 2; 1].

(** A renderer that rejects the template. *)
Definition rejectingTemplate : string -> list searchParams -> option error :=
  fun _ _ => Some (ErrRender "Template parsing error").

(** The error an expression raises when parsed on its own, if any. *)
Definition exprError (expr : string) : option error :=
  match parseOne expr emptyFilterParams with
  | Returned (inr e) => Some e
  | _ => None
  end.

(** The records the registries contribute, the [k]-th query being the
    first: those of the registries that answer, in registry order. *)
Fixpoint contributions
  (SearchRegistry :
     nat -> string -> string -> Z -> list docker.SearchResult + error)
  (term : string) (opts : searchOpts) (flt : searchFilterParams)
  (registries : list string) (k : nat) : list searchParams :=
  match registries with
  | [] => []
  | reg :: registries' =>
      match SearchRegistry k reg term (queryLimit opts) with
      | inl results => registryRecords opts flt reg results
      | inr _ => []
      end
      ++ contributions SearchRegistry term opts flt registries' (S k)
  end.

(** The queries and logged errors of a run over the registries. *)
Fixpoint queryTrace
  (SearchRegistry :
     nat -> string -> string -> Z -> list docker.SearchResult + error)
  (term : string) (lim : Z) (registries : list string) (k : nat)
  : list event :=
  match registries with
  | [] => []
  | reg :: registries' =>
      EvQuery reg term lim
      :: match SearchRegistry k reg term lim with
         | inl _ => []
         | inr e => [EvLogError reg e]
         end
      ++ queryTrace SearchRegistry term lim registries' (S k)
  end.

(** A registry client whose every query fails. *)
Definition unreachable
  : nat -> string -> string -> Z -> list docker.SearchResult + error :=
  fun _ reg _ _ => inr (ErrRegistry reg).

(** The byte pair [old1 old2] occurs in [s]. *)
Fixpoint hasPair (s : string) (old1 old2 : ascii) : bool :=
  match s with
  | EmptyString => false
  | String a s' =>
      match s' with
      | EmptyString => false
      | String b _ =>
          (Ascii.eqb a old1 && Ascii.eqb b old2) || hasPair s' old1 old2
      end
  end.

(** The name an event of [machine.stop] carries. *)
Definition eventName (ev : machine.event) : string :=
  match ev with
  | machine.EvLoadVMByName name => name
  | machine.EvStop name => name
  | machine.EvPrintStopped name => name
  end.

(** Command-line values with one argument and the given filters. *)
Definition valuesOf (args exprs : list string) (fmt : string)
  : cliconfig.SearchValues :=
  {| cliconfig.InputArgs := args;
     cliconfig.Authfile := "";
     cliconfig.Filter := exprs;
     cliconfig.Format := fmt;
     cliconfig.Limit := 0;
     cliconfig.NoTrunc := false;
     cliconfig.TlsVerify := true;
     cliconfig.TlsVerifyChanged := false |}.

(** A raw result with a long description on two lines. *)
Definition verboseResult : docker.SearchResult :=
  {| docker.Name := "alpine";
     docker.Description :=
       String "A" (String "010"
         "minimal Docker image based on Alpine Linux, 5 MB in size");
     docker.StarCount := 1;
     docker.IsOfficial := true;
     docker.IsAutomated := false |}.

(** A registry configuration for the examples: the registry of a term is
    what stands before its first slash, if it has one. *)
Definition firstSegment (term : string) : string + error :=
  match strings.Split term "/" with
  | registry :: _ :: _ => inl registry
  | _ => inl ""
  end.

Definition systemRegistries : list string + error :=
  inl ["docker.io"; "quay.io"].

(** The text after the first occurrence of [sep], when there is one. *)
Fixpoint afterFirst (s : string) (sep : ascii) : option string :=
  match s with
  | EmptyString => None
  | String c s' => if Ascii.eqb c sep then Some s' else afterFirst s' sep
  end.

(** * Properties *)

(** ** The library functions *)

(** Case analysis on the condition of the first conditional of the goal. *)
Ltac case_if :=
  match goal with
  | |- context [if ?b then _ else _] => destruct b eqn:?
  end.

Lemma Split_not_nil (s : string) (sep : ascii) : strings.Split s sep <> [].
Proof.
  destruct s as [|c s]; simpl; [discriminate|].
  destruct (Ascii.eqb c sep); [discriminate|].
  destruct (strings.Split s sep); discriminate.
Qed.

Lemma Replace_length (s : string) (old new : ascii) :
  String.length (strings.Replace s old new) = String.length s.
Proof.
  induction s as [|a s IH]; simpl; [reflexivity|].
  now rewrite IH.
Qed.

Lemma Replace_get (s : string) (old new : ascii) (i : nat) :
  String.get i (strings.Replace s old new)
  = option_map (fun a => if Ascii.eqb a old then new else a) (String.get i s).
Proof.
  revert i; induction s as [|a s IH]; intros i; simpl; [reflexivity|].
  destruct i as [|i]; simpl; [reflexivity|apply IH].
Qed.

Lemma prefix_substring (n : nat) (s : string) :
  strings.prefix n s = String.substring 0 n s.
Proof.
  revert s; induction n as [|n IH]; intros [|a s]; simpl; try reflexivity.
  now rewrite IH.
Qed.

Lemma prefix_length (n : nat) (s : string) :
  (n <= String.length s)%nat -> String.length (strings.prefix n s) = n.
Proof.
  revert s; induction n as [|n IH]; intros [|a s]; simpl; intros H;
    try reflexivity; try lia.
  rewrite IH; [reflexivity|lia].
Qed.

(** ** Splitting and joining *)

Lemma concat_cons_nonempty (sep w : string) (ws : list string) :
  ws <> [] ->
  String.concat sep (w :: ws) = (w ++ sep ++ String.concat sep ws)%string.
Proof. destruct ws; [congruence|reflexivity]. Qed.

(** Joining the pieces of a split with the separator gives the string
    back. *)
Lemma Join_Split (s : string) (sep : ascii) :
  strings.Join (strings.Split s sep) (String sep "") = s.
Proof.
  unfold strings.Join.
  induction s as [|a s IH]; simpl; [reflexivity|].
  destruct (Ascii.eqb a sep) eqn:E.
  - apply Ascii.eqb_eq in E. subst a.
    rewrite concat_cons_nonempty by apply Split_not_nil.
    simpl. now rewrite IH.
  - destruct (strings.Split s sep) as [|w ws] eqn:Es.
    + now apply Split_not_nil in Es.
    + destruct ws as [|w' ws]; simpl in *; now rewrite <- IH.
Qed.

Lemma Split_no_sep (w : string) (sep : ascii) :
  strings.Contains w sep = false -> strings.Split w sep = [w].
Proof.
  induction w as [|a w IH]; simpl; [reflexivity|].
  intros H. apply orb_false_iff in H. destruct H as [Ha Hw].
  rewrite Ha. now rewrite IH.
Qed.

Lemma Split_app_sep (w rest : string) (sep : ascii) :
  strings.Contains w sep = false ->
  strings.Split (w ++ String sep rest) sep = w :: strings.Split rest sep.
Proof.
  induction w as [|a w IH]; simpl.
  - intros _. now rewrite Ascii.eqb_refl.
  - intros H. apply orb_false_iff in H. destruct H as [Ha Hw].
    rewrite Ha. now rewrite IH.
Qed.

(** The pieces of a split do not contain the separator. *)
Lemma Split_pieces (s : string) (sep : ascii) :
  Forall (fun w => strings.Contains w sep = false) (strings.Split s sep).
Proof.
  induction s as [|a s IH]; simpl.
  - now repeat constructor.
  - destruct (Ascii.eqb a sep) eqn:E.
    + now constructor.
    + destruct (strings.Split s sep) as [|w ws] eqn:Es;
        [now apply Split_not_nil in Es|].
      inversion IH as [|? ? Hw Hws]; subst.
      constructor; [|exact Hws]. simpl. now rewrite E.
Qed.

(** Splitting the join of separator-free pieces gives the pieces back. *)
Lemma Split_Join (l : list string) (sep : ascii) :
  l <> [] ->
  Forall (fun w => strings.Contains w sep = false) l ->
  strings.Split (strings.Join l (String sep "")) sep = l.
Proof.
  unfold strings.Join.
  induction l as [|w l IH]; [congruence|].
  intros _ H. inversion H as [|? ? Hw Hl]; subst.
  destruct l as [|w' l].
  - simpl. now apply Split_no_sep.
  - rewrite concat_cons_nonempty by discriminate.
    simpl String.append. rewrite Split_app_sep by exact Hw.
    f_equal. apply IH; [discriminate|exact Hl].
Qed.

Lemma append_assoc (a b c : string) :
  ((a ++ b) ++ c = a ++ (b ++ c))%string.
Proof. induction a as [|x a IH]; simpl; [reflexivity|now rewrite IH]. Qed.

Lemma append_length (a b : string) :
  String.length (a ++ b) = (String.length a + String.length b)%nat.
Proof. induction a as [|x a IH]; simpl; [reflexivity|now rewrite IH]. Qed.

Lemma Forall_skipn {A : Type} (P : A -> Prop) (n : nat) :
  forall l, Forall P l -> Forall P (skipn n l).
Proof.
  induction n as [|n IH]; intros l H; [exact H|].
  destruct l as [|a l]; [constructor|].
  inversion H; subst. now apply IH.
Qed.

Lemma Join_app (l1 l2 : list string) (sep : string) :
  l1 <> [] -> l2 <> [] ->
  strings.Join (l1 ++ l2) sep
  = (strings.Join l1 sep ++ sep ++ strings.Join l2 sep)%string.
Proof.
  unfold strings.Join.
  induction l1 as [|w l1 IH]; [congruence|].
  intros _ H2. destruct l1 as [|w' l1].
  - simpl app. now rewrite concat_cons_nonempty.
  - change ((w :: w' :: l1) ++ l2) with (w :: (w' :: l1) ++ l2).
    rewrite concat_cons_nonempty by discriminate.
    rewrite IH by (discriminate || exact H2).
    rewrite (concat_cons_nonempty sep w (w' :: l1)) by discriminate.
    now rewrite !append_assoc.
Qed.

(** ** Filter predicates *)

(** C8: for a raw result with a non-negative star count, [matches] is the
    conjunction of the star threshold (inclusive), official-equality-if-set
    and automated-equality-if-set; each of the three passes when its filter
    is unset, so the empty filter set accepts the result; with only
    [stars = n] set the result matches exactly when [n <= StarCount]. *)
Theorem matches_is_conjunction :
  forall (flt : searchFilterParams) (result : docker.SearchResult),
    0 <= docker.StarCount result ->
    matches flt result
    = ((stars flt <=? docker.StarCount result)
       && (match isOfficial flt with
           | Some b => Bool.eqb (docker.IsOfficial result) b
           | None => true
           end)
       && (match isAutomated flt with
           | Some b => Bool.eqb (docker.IsAutomated result) b
           | None => true
           end))
    /\ (stars flt = 0 -> matchesStarFilter flt result = true)
    /\ (isOfficial flt = None -> matchesOfficialFilter flt result = true)
    /\ (isAutomated flt = None -> matchesAutomatedFilter flt result = true)
    /\ matches emptyFilterParams result = true
    /\ (forall n, matches (set_stars n emptyFilterParams) result
                  = (n <=? docker.StarCount result)).
Proof.
  intros flt result Hstars.
  unfold matches, matchesStarFilter, matchesOfficialFilter,
    matchesAutomatedFilter.
  repeat split.
  - destruct (isAutomated flt) as [a|], (isOfficial flt) as [o|];
      destruct (stars flt <=? docker.StarCount result);
      try destruct (Bool.eqb (docker.IsAutomated result) a);
      try destruct (Bool.eqb (docker.IsOfficial result) o);
      reflexivity.
  - intros ->. now apply Z.leb_le.
  - now intros ->.
  - now intros ->.
  - simpl. now apply Z.leb_le.
Qed.

Lemma matches_is_conjunction_witness :
  0 <= docker.StarCount (sampleResult "alpine" 5)
  /\ matches (set_stars 5 emptyFilterParams) (sampleResult "alpine" 5) = true
  /\ matches (set_stars 5 emptyFilterParams) (sampleResult "alpine" 4) = false.
Proof.
  split; [simpl; lia|].
  split.
  - rewrite (proj2 (proj2 (proj2 (proj2 (proj2
      (matches_is_conjunction emptyFilterParams (sampleResult "alpine" 5)
         ltac:(simpl; lia)))))) 5).
    reflexivity.
  - rewrite (proj2 (proj2 (proj2 (proj2 (proj2
      (matches_is_conjunction emptyFilterParams (sampleResult "alpine" 4)
         ltac:(simpl; lia)))))) 5).
    reflexivity.
Defined.

(** ** Projection *)

(** C6: under a registry host whose index label is ["docker.io"], a raw
    name without ['/'] is qualified as ["docker.io" ++ "/library/" ++ name]
    and a raw name with a ['/'] as [host ++ "/" ++ name]; under every other
    host the qualified name is [host ++ "/" ++ name]. *)
Theorem project_qualified_name :
  forall (opts : searchOpts) (reg : string) (result : docker.SearchResult),
    Name (project opts reg (indexOf reg) result)
    = if String.eqb (indexOf reg) "docker.io"
      then if strings.Contains (docker.Name result) "/"
           then (reg ++ "/" ++ docker.Name result)%string
           else ("docker.io" ++ "/library/" ++ docker.Name result)%string
      else (reg ++ "/" ++ docker.Name result)%string.
Proof.
  intros opts reg result. unfold project, qualify; cbn [Name].
  destruct (String.eqb (indexOf reg) "docker.io") eqn:E; [|reflexivity].
  apply String.eqb_eq in E. rewrite E.
  destruct (strings.Contains (docker.Name result) "/"); reflexivity.
Qed.

(** C7: the description of a projected record is the raw description with
    every newline replaced by one space first; then, with truncation
    enabled and more than 44 characters, it is the first 44 characters of
    the collapsed string followed by ["..."] (so 45 characters give the
    first 44 and the dots); with truncation disabled the collapsed string
    is kept whole at any length. *)
Theorem describe_collapses_then_truncates :
  forall (opts : searchOpts) (reg index : string)
         (result : docker.SearchResult),
    let raw := docker.Description result in
    let collapsed := strings.Replace raw "010" " " in
    String.length collapsed = String.length raw
    /\ (forall i, String.get i collapsed
                  = option_map
                      (fun a => if Ascii.eqb a "010" then " "%char else a)
                      (String.get i raw))
    /\ Description (project opts reg index result)
       = (if noTrunc opts then collapsed
          else if (44 <? String.length collapsed)%nat
               then (String.substring 0 44 collapsed ++ "...")%string
               else collapsed)
    /\ (if noTrunc opts then True
        else if (String.length raw =? 45)%nat
             then exists last,
                 collapsed
                 = (String.substring 0 44 collapsed ++ String last "")%string
                 /\ Description (project opts reg index result)
                    = (String.substring 0 44 collapsed ++ "...")%string
                 /\ String.length (String.substring 0 44 collapsed) = 44%nat
             else True).
Proof.
  intros opts reg index result raw collapsed.
  change (Description (project opts reg index result))
    with (describe opts raw).
  assert (Hlen : String.length collapsed = String.length raw)
    by apply Replace_length.
  assert (Hdesc : describe opts raw
       = (if noTrunc opts then collapsed
          else if (44 <? String.length collapsed)%nat
               then (String.substring 0 44 collapsed ++ "...")%string
               else collapsed)).
  { unfold describe, slen. fold collapsed.
    rewrite prefix_substring.
    change (Z.to_nat descriptionTruncLength) with 44%nat.
    destruct (noTrunc opts); simpl.
    - now rewrite andb_false_r.
    - rewrite andb_true_r.
      destruct (44 <? String.length collapsed)%nat eqn:E.
      + apply Nat.ltb_lt in E.
        replace (44 <? Z.of_nat (String.length collapsed)) with true;
          [reflexivity|]. symmetry. apply Z.ltb_lt. lia.
      + apply Nat.ltb_ge in E.
        replace (44 <? Z.of_nat (String.length collapsed)) with false;
          [reflexivity|]. symmetry. apply Z.ltb_ge. lia. }
  split; [exact Hlen|]. split; [intros i; apply Replace_get|].
  split; [exact Hdesc|].
  destruct (noTrunc opts) eqn:Ent; [exact I|].
  destruct (String.length raw =? 45)%nat eqn:E45; [|exact I].
  apply Nat.eqb_eq in E45. rewrite <- Hlen in E45.
  rewrite Hdesc. rewrite E45. simpl (44 <? 45)%nat. cbv iota.
  clear Hdesc Hlen. generalize dependent collapsed. intros c Hc.
  do 45 (destruct c as [|? c]; [discriminate Hc|]).
  destruct c; [|discriminate Hc].
  eexists. repeat split.
Qed.

(** ** Filter parsing *)

Lemma digit_range (c : ascii) (d : Z) :
  strconv.digit c = Some d -> 0 <= d <= 9.
Proof.
  unfold strconv.digit.
  destruct ((48 <=? Z.of_N (N_of_ascii c)) && (Z.of_N (N_of_ascii c) <=? 57))
    eqn:E; [|discriminate].
  apply andb_true_iff in E. destruct E as [E1 E2].
  apply Z.leb_le in E1. apply Z.leb_le in E2.
  intros [= <-]. lia.
Qed.

Lemma parseDigits_inl (s : string) :
  forall n un, 0 <= n -> strconv.parseDigits s n = inl un ->
               allDigits s = true /\ 0 <= un.
Proof.
  induction s as [|c s IH]; intros n un Hn; simpl.
  - intros [= <-]. split; [reflexivity|exact Hn].
  - destruct (strconv.digit c) as [d|] eqn:Ed; [|discriminate].
    apply digit_range in Ed.
    do 2 (case_if; [discriminate|]).
    intros H. apply (IH (n * 10 + d) un); [lia|exact H].
Qed.

Lemma Atoi_inl (v : string) (n : Z) :
  strconv.Atoi v = inl n ->
  isNumeric v = true /\ strconv.minInt <= n <= strconv.maxInt.
Proof.
  unfold strconv.Atoi, isNumeric, unsignedPart.
  destruct v as [|c t]; [discriminate|].
  set (neg := Ascii.eqb c "-").
  set (body := if neg || Ascii.eqb c "+" then t else String c t).
  destruct body as [|b body'] eqn:Eb; [discriminate|].
  destruct (strconv.parseDigits (String b body') 0) as [un|e] eqn:Ep;
    [|discriminate].
  apply parseDigits_inl in Ep; [|lia]. destruct Ep as [Hd Hun].
  rewrite Hd. simpl (negb _ && _).
  unfold strconv.minInt, strconv.maxInt.
  change (2 ^ 63) with 9223372036854775808.
  destruct neg; simpl negb; simpl andb; cbv iota;
    case_if; try discriminate; intros [= ?]; subst n;
    (split; [reflexivity|]);
    match goal with H : (_ <? _) = false |- _ => apply Z.ltb_ge in H end;
    lia.
Qed.

Lemma parseOne_returns (expr : string) (fp : searchFilterParams) :
  exists r, parseOne expr fp = Returned r.
Proof.
  unfold parseOne.
  destruct (strings.Split expr "=") as [|key rest] eqn:E.
  - now apply Split_not_nil in E.
  - destruct (String.eqb key "stars").
    + destruct rest as [|v rest]; [eexists; reflexivity|].
      destruct (strconv.Atoi v); eexists; reflexivity.
    + destruct (String.eqb key "is-automated"); [eexists; reflexivity|].
      destruct (String.eqb key "is-official"); eexists; reflexivity.
Qed.

Lemma parseLoop_returns (exprs : list string) :
  forall fp, exists r, parseLoop exprs fp = Returned r.
Proof.
  induction exprs as [|expr exprs IH]; intros fp; simpl.
  - eexists; reflexivity.
  - destruct (parseOne_returns expr fp) as [[fp'|e] ->]; simpl.
    + apply IH.
    + eexists; reflexivity.
Qed.

(** The loop over a concatenation: the first part, then the second part
    from the filter set the first part produced. *)
Lemma parseLoop_app (pre post : list string) :
  forall fp,
    parseLoop (pre ++ post) fp
    = (r <- parseLoop pre fp ;;
       match r with
       | inr e => Returned (inr e)
       | inl fp' => parseLoop post fp'
       end).
Proof.
  induction pre as [|expr pre IH]; intros fp; simpl; [reflexivity|].
  destruct (parseOne expr fp) as [|[fp'|e]]; simpl; try reflexivity.
  apply IH.
Qed.

(** What stands after the first [=] of an expression, in terms of its
    pieces: nothing when there is one piece, the other pieces joined
    otherwise. *)
Lemma afterFirst_Split (s : string) (sep : ascii) :
  match strings.Split s sep with
  | [] => False
  | [_] => afterFirst s sep = None
  | _ :: rest => afterFirst s sep = Some (strings.Join rest (String sep ""))
  end.
Proof.
  induction s as [|c s IH]; simpl; [reflexivity|].
  destruct (Ascii.eqb c sep) eqn:E.
  - rewrite Join_Split.
    destruct (strings.Split s sep) eqn:Es;
      [now apply Split_not_nil in Es|reflexivity].
  - destruct (strings.Split s sep) as [|w [|w' ws]]; [contradiction| |];
      exact IH.
Qed.

(** C4 (as the code has it): for a filter list with a [stars] expression,
    once the expressions before it have parsed: the expression is cut at
    every [=], and its value is the piece between the first [=] and the
    next one (or the end), what follows a second [=] being ignored.  A bare
    [stars] (no [=] at all) or a value [strconv.Atoi] rejects ends the
    parse with an error; a value it accepts is numeric (an optional sign
    and decimal digits), lies in the signed 64-bit range, possibly below
    zero, and becomes the minimum star count with which the parse goes
    on. *)
Theorem stars_expression_parse :
  forall (opts : searchOpts) (pre post rest : list string) (expr : string),
    filter opts = pre ++ expr :: post ->
    strings.Split expr "=" = "stars" :: rest ->
    match parseLoop pre emptyFilterParams with
    | Panicked => False
    | Returned (inr e) => parseSearchFilter opts = Returned (inr e)
    | Returned (inl fp) =>
        match rest with
        | [] => afterFirst expr "=" = None
                /\ parseSearchFilter opts
                   = Returned (inr (ErrInvalidStars expr))
        | v :: more =>
            afterFirst expr "=" = Some (strings.Join (v :: more) "=")
            /\ strings.Contains v "=" = false
            /\ match strconv.Atoi v with
               | inr e => parseSearchFilter opts
                          = Returned (inr (ErrStarsValue e))
               | inl n =>
                   isNumeric v = true
                   /\ strconv.minInt <= n <= strconv.maxInt
                   /\ parseOne expr fp = Returned (inl (set_stars n fp))
                   /\ parseSearchFilter opts
                      = parseLoop post (set_stars n fp)
               end
        end
    end.
Proof.
  intros opts pre post rest expr Hf Hsplit.
  pose proof (afterFirst_Split expr "=") as Hafter.
  pose proof (Split_pieces expr "=") as Hpieces.
  rewrite Hsplit in Hafter, Hpieces.
  unfold parseSearchFilter. rewrite Hf, parseLoop_app.
  destruct (parseLoop_returns pre emptyFilterParams) as [[fp|e] ->];
    simpl; [|reflexivity].
  unfold parseOne. rewrite Hsplit. simpl.
  destruct rest as [|v more]; [split; [exact Hafter|reflexivity]|].
  split; [exact Hafter|]. split.
  { inversion Hpieces as [|? ? _ Hrest]; subst. now inversion Hrest. }
  destruct (strconv.Atoi v) as [n|e] eqn:Ea; simpl; [|reflexivity].
  apply Atoi_inl in Ea. destruct Ea as [Hnum Hrange].
  repeat split; try assumption; apply Hrange.
Qed.

Lemma stars_expression_parse_witness :
  filter (optionsOf ["is-official"; "stars=7"; "is-automated=false"] 0 false)
  = ["is-official"] ++ "stars=7" :: ["is-automated=false"]
  /\ strings.Split "stars=7" "=" = ["stars"; "7"]
  /\ parseSearchFilter
       (optionsOf ["is-official"; "stars=7"; "is-automated=false"] 0 false)
     = Returned (inl {| stars := 7;
                        isAutomated := Some false;
                        isOfficial := Some true |}).
Proof.
  split; [reflexivity|]. split; [reflexivity|].
  exact (proj2 (proj2 (proj2 (proj2 (proj2
    (stars_expression_parse
       (optionsOf ["is-official"; "stars=7"; "is-automated=false"] 0 false)
       ["is-official"] ["is-automated=false"] ["7"] "stars=7"
       eq_refl eq_refl)))))).
Defined.

(** Two values that are not non-negative integers and are accepted all the
    same.  A negative one: ["stars=-5"] parses, and the minimum star count
    becomes [-5].  One with a second [=]: what stands after the first [=]
    of ["stars=5=x"] is ["5=x"], which is not numeric and which
    [strconv.Atoi] rejects, yet the expression parses, with minimum star
    count [5]. *)
Lemma stars_value_not_as_claimed :
  (parseSearchFilter (optionsOf ["stars=-5"] 0 false)
   = Returned (inl {| stars := -5; isAutomated := None;
                      isOfficial := None |})
   /\ ~ (exists n, 0 <= n
                   /\ parseSearchFilter (optionsOf ["stars=-5"] 0 false)
                      = Returned (inl (set_stars n emptyFilterParams)))
   /\ ~ (exists e, parseSearchFilter (optionsOf ["stars=-5"] 0 false)
                   = Returned (inr e)))
  /\ (afterFirst "stars=5=x" "=" = Some "5=x"
      /\ isNumeric "5=x" = false
      /\ strconv.Atoi "5=x" = inr strconv.ErrSyntax
      /\ parseSearchFilter (optionsOf ["stars=5=x"] 0 false)
         = Returned (inl {| stars := 5; isAutomated := None;
                            isOfficial := None |})
      /\ ~ (exists e, parseSearchFilter (optionsOf ["stars=5=x"] 0 false)
                      = Returned (inr e))).
Proof.
  split.
  - split; [reflexivity|]. split.
    + intros [n [Hn H]]. vm_compute in H. injection H as H. lia.
    + intros [e H]. vm_compute in H. discriminate H.
  - repeat split; try reflexivity.
    intros [e H]. vm_compute in H. discriminate H.
Qed.

(** What one accepted expression does: it writes the field of its own key
    with a value that depends on the expression only, and leaves the other
    two fields alone. *)
Lemma parseOne_accepts (expr : string) (fp fp' : searchFilterParams) :
  parseOne expr fp = Returned (inl fp') ->
  exists k,
    exprKey expr = keyName k
    /\ (forall fp0, exists fp0',
           parseOne expr fp0 = Returned (inl fp0')
           /\ fieldOf k fp0' = fieldOf k fp')
    /\ (forall k', k' <> k -> fieldOf k' fp' = fieldOf k' fp).
Proof.
  unfold parseOne, exprKey.
  destruct (strings.Split expr "=") as [|key rest]; [discriminate|].
  simpl hd.
  destruct (String.eqb key "stars") eqn:Es.
  - apply String.eqb_eq in Es.
    destruct rest as [|v rest]; [discriminate|].
    destruct (strconv.Atoi v) as [n|e]; [|discriminate].
    intros [= <-]. exists KeyStars. split; [exact Es|]. split.
    + intros fp0. eexists. split; reflexivity.
    + intros [] Hk; try reflexivity. now contradict Hk.
  - destruct (String.eqb key "is-automated") eqn:Ea.
    + apply String.eqb_eq in Ea.
      intros [= <-]. exists KeyAutomated. split; [exact Ea|]. split.
      * intros fp0. eexists. split; reflexivity.
      * intros [] Hk; try reflexivity. now contradict Hk.
    + destruct (String.eqb key "is-official") eqn:Eo; [|discriminate].
      apply String.eqb_eq in Eo.
      intros [= <-]. exists KeyOfficial. split; [exact Eo|]. split.
      * intros fp0. eexists. split; reflexivity.
      * intros [] Hk; try reflexivity. now contradict Hk.
Qed.

Lemma keyName_inj (k k' : filterKey) : keyName k = keyName k' -> k = k'.
Proof. destruct k, k'; simpl; intros H; try reflexivity; discriminate H. Qed.

(** Expressions with other keys do not touch the field of key [k]. *)
Lemma parseLoop_preserves (k : filterKey) (post : list string) :
  forall fp1 fp,
    (forall e, In e post -> exprKey e <> keyName k) ->
    parseLoop post fp1 = Returned (inl fp) ->
    fieldOf k fp = fieldOf k fp1.
Proof.
  induction post as [|e post IH]; intros fp1 fp Hkeys; simpl.
  - now intros [= <-].
  - destruct (parseOne e fp1) as [|[fp2|err]] eqn:E; simpl; try discriminate.
    intros Hrest.
    rewrite (IH fp2 fp (fun e' He' => Hkeys e' (or_intror He')) Hrest).
    destruct (parseOne_accepts e fp1 fp2 E) as [k0 [Hk0 [_ Hother]]].
    apply Hother. intros ->. exact (Hkeys e (or_introl eq_refl) Hk0).
Qed.



(** ** The aggregation loop *)

Lemma queriesOf_app (evs evs' : list event) :
  queriesOf (evs ++ evs') = queriesOf evs ++ queriesOf evs'.
Proof.
  induction evs as [|[reg term lim | reg e] evs IH]; simpl;
    [reflexivity| |]; now rewrite IH.
Qed.

Lemma skipn_nth_error {A : Type} (l : list A) :
  forall i x, nth_error l i = Some x -> skipn i l = x :: skipn (S i) l.
Proof.
  induction l as [|a l IH]; intros [|i] x; simpl; try discriminate.
  - now intros [= ->].
  - intros H. now rewrite (IH i x H).
Qed.

Lemma filter_all {A : Type} (f : A -> bool) (l : list A) :
  forallb f l = true -> List.filter f l = l.
Proof.
  induction l as [|a l IH]; simpl; [reflexivity|].
  intros H. apply andb_true_iff in H. destruct H as [Ha Hl].
  rewrite Ha. now rewrite IH.
Qed.

Lemma forallb_firstn {A : Type} (f : A -> bool) (n : nat) :
  forall l, forallb f l = true -> forallb f (firstn n l) = true.
Proof.
  induction n as [|n IH]; intros [|a l]; simpl; try reflexivity.
  intros H. apply andb_true_iff in H. destruct H as [Ha Hl].
  now rewrite Ha, IH.
Qed.

Section ResultLoop.

Variables (opts : searchOpts) (flt : searchFilterParams).
Variables (reg : string) (results : list docker.SearchResult).

(** Within the slice the loop never panics: it visits the [n] results
    from index [i] on, in order, and appends the accepted ones. *)
Lemma resultLoop_spec (index : string) :
  forall (n i : nat) (acc : list searchParams),
    (i + n <= List.length results)%nat ->
    resultLoop opts flt reg index results n i acc
    = Returned (acc ++ map (project opts reg index)
                         (List.filter (accepted opts flt)
                            (firstn n (skipn i results)))).
Proof.
  induction n as [|n IH]; intros i acc Hle; simpl.
  - now rewrite app_nil_r.
  - destruct (nth_error results i) as [result|] eqn:E.
    + rewrite (skipn_nth_error results i result E). simpl.
      rewrite IH by lia.
      destruct (accepted opts flt result); simpl; [|reflexivity].
      now rewrite <- app_assoc.
    + apply nth_error_None in E. lia.
Qed.

Lemma resultLimit_cases :
  resultLimit opts results
  = if negb (limit opts =? 0) && (limit opts <? len results)
    then limit opts
    else Z.min maxQueries (len results).
Proof.
  unfold resultLimit. case_if; [reflexivity|].
  destruct (len results <? maxQueries) eqn:E.
  - apply Z.ltb_lt in E. lia.
  - apply Z.ltb_ge in E. lia.
Qed.

Lemma resultLimit_le_len : resultLimit opts results <= len results.
Proof.
  rewrite resultLimit_cases.
  destruct (negb (limit opts =? 0) && (limit opts <? len results)) eqn:E.
  - apply andb_true_iff in E. destruct E as [_ E].
    apply Z.ltb_lt in E. lia.
  - lia.
Qed.

Lemma resultLoop_limit (acc : list searchParams) :
  resultLoop opts flt reg (indexOf reg) results
    (Z.to_nat (resultLimit opts results)) 0 acc
  = Returned (acc ++ registryRecords opts flt reg results).
Proof.
  unfold registryRecords. pose proof resultLimit_le_len as Hle.
  unfold len in Hle.
  assert (H : (0 + Z.to_nat (resultLimit opts results)
               <= List.length results)%nat) by lia.
  now rewrite (resultLoop_spec (indexOf reg) _ 0%nat acc H).
Qed.

End ResultLoop.

Section RegistryLoop.

Variable SearchRegistry :
  nat -> string -> string -> Z -> list docker.SearchResult + error.
Variables (term : string) (opts : searchOpts) (flt : searchFilterParams).
Variable lim : Z.

(** One turn of the loop for a registry whose query fails. *)
Lemma registryLoop_failed (reg : string) (registries : list string)
  (k : nat) (st : aggState) (e : error) :
  SearchRegistry k reg term lim = inr e ->
  registryLoop SearchRegistry term (reg :: registries) opts flt lim k st
  = registryLoop SearchRegistry term registries opts flt lim (S k)
      {| paramsArr := paramsArr st;
         trace := trace st ++ [EvQuery reg term lim; EvLogError reg e] |}.
Proof.
  intros H. simpl. rewrite H. now rewrite <- app_assoc.
Qed.

(** One turn of the loop for a registry that answers. *)
Lemma registryLoop_answered (reg : string) (registries : list string)
  (k : nat) (st : aggState) (results : list docker.SearchResult) :
  SearchRegistry k reg term lim = inl results ->
  registryLoop SearchRegistry term (reg :: registries) opts flt lim k st
  = registryLoop SearchRegistry term registries opts flt lim (S k)
      {| paramsArr := paramsArr st ++ registryRecords opts flt reg results;
         trace := trace st ++ [EvQuery reg term lim] |}.
Proof.
  intros H. simpl. rewrite H. now rewrite resultLoop_limit.
Qed.

(** The loop always returns; it has issued one query per registry, in
    order, each with the same limit. *)
Lemma registryLoop_returns (registries : list string) :
  forall (k : nat) (st : aggState),
  exists st',
    registryLoop SearchRegistry term registries opts flt lim k st
    = Returned st'
    /\ queriesOf (trace st')
       = queriesOf (trace st)
         ++ map (fun reg => (reg, term, lim)) registries.
Proof.
  induction registries as [|reg registries IH]; intros k st.
  - exists st. simpl. now rewrite app_nil_r.
  - destruct (SearchRegistry k reg term lim) as [results|e] eqn:E.
    + rewrite (registryLoop_answered _ _ _ _ _ E).
      destruct (IH (S k)
        {| paramsArr := paramsArr st ++ registryRecords opts flt reg results;
           trace := trace st ++ [EvQuery reg term lim] |})
        as [st' [Hrun Hq]].
      exists st'. split; [exact Hrun|]. rewrite Hq. simpl.
      rewrite queriesOf_app. simpl. now rewrite <- app_assoc.
    + rewrite (registryLoop_failed _ _ _ _ _ E).
      destruct (IH (S k)
        {| paramsArr := paramsArr st;
           trace := trace st ++ [EvQuery reg term lim; EvLogError reg e] |})
        as [st' [Hrun Hq]].
      exists st'. split; [exact Hrun|]. rewrite Hq. simpl.
      rewrite queriesOf_app. simpl. now rewrite <- app_assoc.
Qed.

End RegistryLoop.

(** C1: a caller limit of 3 is applied to each registry on its own: two
    registries that each return 10 raw results passing the filters give 6
    records, the first 3 of the first registry and then the first 3 of the
    second. *)
Theorem limit_is_per_registry :
  forall (SearchRegistry :
            nat -> string -> string -> Z -> list docker.SearchResult + error)
         (term reg1 reg2 : string) (opts : searchOpts)
         (flt : searchFilterParams) (rs1 rs2 : list docker.SearchResult),
    limit opts = 3 ->
    SearchRegistry 0%nat reg1 term (queryLimit opts) = inl rs1 ->
    SearchRegistry 1%nat reg2 term (queryLimit opts) = inl rs2 ->
    List.length rs1 = 10%nat ->
    List.length rs2 = 10%nat ->
    forallb (accepted opts flt) (rs1 ++ rs2) = true ->
    getSearchOutput SearchRegistry term [reg1; reg2] opts flt
    = Returned
        {| records :=
             map (project opts reg1 (indexOf reg1)) (firstn 3 rs1)
             ++ map (project opts reg2 (indexOf reg2)) (firstn 3 rs2);
           err := None;
           events := [EvQuery reg1 term 3; EvQuery reg2 term 3] |}
    /\ List.length
         (map (project opts reg1 (indexOf reg1)) (firstn 3 rs1)
          ++ map (project opts reg2 (indexOf reg2)) (firstn 3 rs2)) = 6%nat.
Proof.
  intros SR term reg1 reg2 opts flt rs1 rs2 Hlim H1 H2 Hl1 Hl2 Hacc.
  assert (Hq : queryLimit opts = 3) by (unfold queryLimit; now rewrite Hlim).
  assert (Hcap : forall rs, List.length rs = 10%nat ->
                            Z.to_nat (resultLimit opts rs) = 3%nat).
  { intros rs Hl. unfold resultLimit, len. rewrite Hl, Hlim. reflexivity. }
  assert (Hrec : forall reg rs,
             List.length rs = 10%nat ->
             forallb (accepted opts flt) rs = true ->
             registryRecords opts flt reg rs
             = map (project opts reg (indexOf reg)) (firstn 3 rs)).
  { intros reg rs Hl Ha. unfold registryRecords. rewrite (Hcap rs Hl).
    now rewrite filter_all by now apply forallb_firstn. }
  rewrite forallb_app in Hacc. apply andb_true_iff in Hacc.
  destruct Hacc as [Ha1 Ha2].
  split.
  - unfold getSearchOutput.
    rewrite (registryLoop_answered SR term opts flt _ reg1 _ _ _ rs1 H1).
    rewrite (registryLoop_answered SR term opts flt _ reg2 _ _ _ rs2 H2).
    simpl. rewrite Hq, (Hrec reg1 rs1 Hl1 Ha1), (Hrec reg2 rs2 Hl2 Ha2).
    reflexivity.
  - rewrite length_app, !length_map, !length_firstn, Hl1, Hl2. reflexivity.
Qed.

Lemma limit_is_per_registry_witness :
  forallb (accepted (optionsOf ["stars=1"] 3 false)
             (set_stars 1 emptyFilterParams))
    (tenResults ++ tenResults) = true
  /\ exists out,
      getSearchOutput (answering tenResults) "alpine" ["docker.io"; "quay.io"]
        (optionsOf ["stars=1"] 3 false) (set_stars 1 emptyFilterParams)
      = Returned out
      /\ map Stars (records out) = [10; 9; 8; 10; 9; 8]
      /\ map Index (records out)
         = ["docker.io"; "docker.io"; "docker.io";
            "quay.io"; "quay.io"; "quay.io"].
Proof.
  split; [reflexivity|].
  eexists. split.
  - exact (proj1 (limit_is_per_registry (answering tenResults) "alpine"
                    "docker.io" "quay.io" (optionsOf ["stars=1"] 3 false)
                    (set_stars 1 emptyFilterParams) tenResults tenResults
                    eq_refl eq_refl eq_refl eq_refl eq_refl eq_refl)).
  - split; reflexivity.
Defined.

(** C2: when the first of two registries fails and the second answers, the
    result is the second registry's filtered and projected records, with a
    nil error; the failure is logged and contributes nothing. *)
Theorem failed_registry_is_skipped :
  forall (SearchRegistry :
            nat -> string -> string -> Z -> list docker.SearchResult + error)
         (term reg1 reg2 : string) (opts : searchOpts)
         (flt : searchFilterParams) (e : error)
         (results : list docker.SearchResult),
    SearchRegistry 0%nat reg1 term (queryLimit opts) = inr e ->
    SearchRegistry 1%nat reg2 term (queryLimit opts) = inl results ->
    getSearchOutput SearchRegistry term [reg1; reg2] opts flt
    = Returned
        {| records := registryRecords opts flt reg2 results;
           err := None;
           events := [EvQuery reg1 term (queryLimit opts);
                      EvLogError reg1 e;
                      EvQuery reg2 term (queryLimit opts)] |}.
Proof.
  intros SR term reg1 reg2 opts flt e results H1 H2.
  unfold getSearchOutput.
  rewrite (registryLoop_failed SR term opts flt _ reg1 _ _ _ e H1).
  rewrite (registryLoop_answered SR term opts flt _ reg2 _ _ _ results H2).
  reflexivity.
Qed.

Lemma failed_registry_is_skipped_witness :
  exists out,
    getSearchOutput (firstFails tenResults) "alpine" ["quay.io"; "docker.io"]
      (optionsOf ["stars=9"] 0 false) (set_stars 9 emptyFilterParams)
    = Returned out
    /\ err out = None
    /\ map Name (records out)
       = ["docker.io/library/alpine"; "docker.io/library/alpine"]
    /\ map Stars (records out) = [10; 9].
Proof.
  eexists. split.
  - exact (failed_registry_is_skipped (firstFails tenResults) "alpine"
             "quay.io" "docker.io" (optionsOf ["stars=9"] 0 false)
             (set_stars 9 emptyFilterParams)
             (ErrRegistry "connection refused") tenResults
             eq_refl eq_refl).
  - repeat split.
Defined.

(** C3 (as the code has it): the result cap of a registry is the caller's
    limit when that limit is non-zero and strictly below the number of raw
    results, and [min(25, len(results))] otherwise; it never exceeds the
    number of raw results nor the larger of 25 and the caller's limit, and
    the loop visits exactly that many raw results, from the first on. *)
Theorem result_cap :
  forall (opts : searchOpts) (results : list docker.SearchResult),
    resultLimit opts results
    = (if negb (limit opts =? 0) && (limit opts <? len results)
       then limit opts
       else Z.min maxQueries (len results))
    /\ resultLimit opts results <= len results
    /\ resultLimit opts results <= Z.max maxQueries (limit opts)
    /\ (forall (flt : searchFilterParams) (reg index : string)
               (acc : list searchParams),
           resultLoop opts flt reg index results
             (Z.to_nat (resultLimit opts results)) 0 acc
           = Returned
               (acc ++ map (project opts reg index)
                         (List.filter (accepted opts flt)
                            (firstn (Z.to_nat (resultLimit opts results))
                               results)))).
Proof.
  intros opts results.
  pose proof (resultLimit_le_len opts results) as Hle.
  split; [apply resultLimit_cases|].
  split; [exact Hle|].
  split.
  - rewrite resultLimit_cases. case_if; lia.
  - intros flt reg index acc.
    apply (resultLoop_spec opts flt reg results index _ 0%nat acc).
    unfold len in Hle. lia.
Qed.

(** With a caller limit of 30 and 40 raw results the cap is 30: more than
    25 raw results are visited, and 30 records come out. *)
Lemma result_cap_above_default :
  resultLimit (optionsOf [] 30 false) (repeat (sampleResult "alpine" 1) 40)
  = 30
  /\ ~ (resultLimit (optionsOf [] 30 false)
          (repeat (sampleResult "alpine" 1) 40) <= 25)
  /\ exists out,
      getSearchOutput (answering (repeat (sampleResult "alpine" 1) 40))
        "alpine" ["quay.io"] (optionsOf [] 30 false) emptyFilterParams
      = Returned out
      /\ List.length (records out) = 30%nat.
Proof.
  split; [reflexivity|]. split.
  - vm_compute. intros H. now apply H.
  - eexists. split; [vm_compute; reflexivity|reflexivity].
Qed.

(** C5 (as the code has it): the limit handed to the registry client is
    the caller's limit whenever that limit is not zero, negative values
    included, and 25 when it is zero; every registry is queried once, in
    order, with that limit. *)
Theorem query_limit_hint :
  forall (SearchRegistry :
            nat -> string -> string -> Z -> list docker.SearchResult + error)
         (term : string) (registries : list string) (opts : searchOpts)
         (flt : searchFilterParams),
    queryLimit opts = (if limit opts =? 0 then 25 else limit opts)
    /\ exists out,
        getSearchOutput SearchRegistry term registries opts flt = Returned out
        /\ queriesOf (events out)
           = map (fun reg => (reg, term, queryLimit opts)) registries.
Proof.
  intros SR term registries opts flt.
  split; [reflexivity|].
  unfold getSearchOutput.
  destruct (registryLoop_returns SR term opts flt (queryLimit opts)
              registries 0%nat {| paramsArr := []; trace := [] |})
    as [st' [-> Hq]].
  eexists. split; [reflexivity|]. exact Hq.
Qed.

(** A caller limit of -1 is not positive, yet it replaces the default: the
    registry is queried with limit -1. *)
Lemma negative_limit_replaces_default :
  limit (optionsOf [] (-1) false) <= 0
  /\ queryLimit (optionsOf [] (-1) false) = -1
  /\ queryLimit (optionsOf [] (-1) false) <> maxQueries
  /\ getSearchOutput (answering tenResults) "alpine" ["docker.io"]
       (optionsOf [] (-1) false) emptyFilterParams
     = Returned {| records := [];
                   err := None;
                   events := [EvQuery "docker.io" "alpine" (-1)] |}.
Proof.
  split; [simpl; lia|].
  split; [reflexivity|].
  split; [discriminate|reflexivity].
Qed.

(** ** Errors of the aggregation *)

(** C10 (as the code has it): [getSearchOutput] always returns, with a nil
    error, whatever the registries answer; so the error branch of
    [generateSearchOutput] is never taken, and the only error it can hand
    to its caller is the renderer's: nil when there is no record, and what
    [Out] returns otherwise. *)
Theorem aggregation_returns_no_error :
  forall (SearchRegistry :
            nat -> string -> string -> Z -> list docker.SearchResult + error)
         (Out : string -> list searchParams -> option error)
         (term : string) (registries : list string) (opts : searchOpts)
         (flt : searchFilterParams),
  exists out,
    getSearchOutput SearchRegistry term registries opts flt = Returned out
    /\ err out = None
    /\ generateSearchOutput SearchRegistry Out term registries opts flt
       = Returned (if len (records out) =? 0 then None
                   else Out (format opts) (records out)).
Proof.
  intros SR Out term registries opts flt.
  unfold generateSearchOutput, getSearchOutput.
  destruct (registryLoop_returns SR term opts flt (queryLimit opts)
              registries 0%nat {| paramsArr := []; trace := [] |})
    as [st' [-> _]].
  eexists. split; [reflexivity|]. split; [reflexivity|].
  simpl. now case_if.
Qed.

(** Filter parsing succeeds, the registry answers, and the search still
    returns an error to its caller: the renderer's. *)
Lemma renderer_error_reaches_caller :
  parseSearchFilter (optionsOf ["is-official=false"] 0 false)
  = Returned (inl (set_isOfficial false emptyFilterParams))
  /\ generateSearchOutput (answering tenResults) rejectingTemplate
       "alpine" ["docker.io"] (optionsOf ["is-official=false"] 0 false)
       (set_isOfficial false emptyFilterParams)
     = Returned (Some (ErrRender "Template parsing error"))
  /\ ~ (generateSearchOutput (answering tenResults) rejectingTemplate
          "alpine" ["docker.io"] (optionsOf ["is-official=false"] 0 false)
          (set_isOfficial false emptyFilterParams)
        = Returned None).
Proof.
  split; [reflexivity|]. split; [reflexivity|].
  vm_compute. discriminate.
Qed.

(** * Further properties of the code *)

(** ** The index label (lines 184-188) *)

Lemma indexOf_labels (reg : string) :
  strings.Split (indexOf reg) "."
  = skipn (List.length (strings.Split reg ".") - 2) (strings.Split reg ".").
Proof.
  unfold indexOf, len.
  destruct (2 <? Z.of_nat (List.length (strings.Split reg "."))) eqn:E.
  - apply Z.ltb_lt in E. apply Split_Join.
    + intros H. apply (f_equal (@List.length string)) in H.
      rewrite length_skipn in H. simpl in H. lia.
    + apply Forall_skipn, Split_pieces.
  - apply Z.ltb_ge in E.
    replace (List.length (strings.Split reg ".") - 2)%nat with 0%nat by lia.
    reflexivity.
Qed.

(** X1: the labels of the index label are the last two dot-separated
    labels of the registry host, or all of them when the host has fewer;
    so an index label never has more than two labels. *)
Theorem index_label_is_last_two_labels :
  forall reg : string,
    strings.Split (indexOf reg) "."
    = skipn (List.length (strings.Split reg ".") - 2)
        (strings.Split reg ".")
    /\ (List.length (strings.Split (indexOf reg) ".") <= 2)%nat.
Proof.
  intros reg. split; [apply indexOf_labels|].
  rewrite indexOf_labels, length_skipn. lia.
Qed.

(** X2: the index label is a suffix of the registry host: the host is some
    prefix followed by its index label. *)
Theorem index_label_is_suffix :
  forall reg : string,
  exists front : string, reg = (front ++ indexOf reg)%string.
Proof.
  intros reg. unfold indexOf, len.
  destruct (2 <? Z.of_nat (List.length (strings.Split reg "."))) eqn:E.
  - apply Z.ltb_lt in E.
    set (arr := strings.Split reg ".") in *.
    set (n := (List.length arr - 2)%nat).
    exists (strings.Join (firstn n arr) "." ++ ".")%string.
    rewrite append_assoc, <- Join_app.
    + rewrite firstn_skipn. subst arr. symmetry. apply Join_Split.
    + intros H. apply (f_equal (@List.length string)) in H.
      rewrite length_firstn in H. simpl in H. lia.
    + intros H. apply (f_equal (@List.length string)) in H.
      rewrite length_skipn in H. simpl in H. lia.
  - exists "". reflexivity.
Qed.

(** X3: the index label of an index label is that label again. *)
Theorem index_label_idempotent :
  forall reg : string, indexOf (indexOf reg) = indexOf reg.
Proof.
  intros reg.
  assert (H : (List.length (strings.Split (indexOf reg) ".") <= 2)%nat)
    by (rewrite indexOf_labels, length_skipn; lia).
  unfold indexOf at 1. unfold len.
  replace (2 <? Z.of_nat (List.length (strings.Split (indexOf reg) ".")))
    with false; [reflexivity|].
  symmetry. apply Z.ltb_ge. lia.
Qed.

(** ** More on filter parsing (lines 250-286) *)

(** Whether an expression is rejected, and with what error, does not depend
    on the filter set built so far. *)
Lemma parseOne_exprError (expr : string) (fp : searchFilterParams) :
  match exprError expr with
  | Some e => parseOne expr fp = Returned (inr e)
  | None => exists fp', parseOne expr fp = Returned (inl fp')
  end.
Proof.
  unfold exprError, parseOne.
  destruct (strings.Split expr "=") as [|key rest] eqn:E.
  - now apply Split_not_nil in E.
  - destruct (String.eqb key "stars").
    + destruct rest as [|v rest]; [reflexivity|].
      destruct (strconv.Atoi v); [eexists|]; reflexivity.
    + destruct (String.eqb key "is-automated"); [eexists; reflexivity|].
      destruct (String.eqb key "is-official"); [eexists|]; reflexivity.
Qed.

Lemma parseLoop_first_invalid (exprs : list string) :
  forall fp,
    match parseLoop exprs fp with
    | Panicked => False
    | Returned (inr e) =>
        exists pre expr post,
          exprs = pre ++ expr :: post
          /\ Forall (fun x => exprError x = None) pre
          /\ exprError expr = Some e
    | Returned (inl _) => Forall (fun x => exprError x = None) exprs
    end.
Proof.
  induction exprs as [|expr exprs IH]; intros fp; simpl; [constructor|].
  pose proof (parseOne_exprError expr fp) as H1.
  destruct (exprError expr) as [e|] eqn:Ee.
  - rewrite H1. simpl. exists [], expr, exprs. now repeat split.
  - destruct H1 as [fp' ->]. simpl.
    specialize (IH fp').
    destruct (parseLoop exprs fp') as [|[fp''|e]]; [exact IH| |].
    + now constructor.
    + destruct IH as [pre [x [post [-> [Hpre Hx]]]]].
      exists (expr :: pre), x, post. repeat split; [|exact Hx].
      now constructor.
Qed.

(** X4: filter parsing never panics; it succeeds exactly when every
    expression is acceptable on its own, and otherwise returns the error of
    the first expression that is not, whatever follows it. *)
Theorem parse_fails_at_first_invalid_expression :
  forall opts : searchOpts,
    match parseSearchFilter opts with
    | Panicked => False
    | Returned (inr e) =>
        exists pre expr post,
          filter opts = pre ++ expr :: post
          /\ Forall (fun x => exprError x = None) pre
          /\ exprError expr = Some e
    | Returned (inl _) => Forall (fun x => exprError x = None) (filter opts)
    end.
Proof.
  intros opts. apply parseLoop_first_invalid.
Qed.

Lemma unknown_key_error (expr : string) :
  exprKey expr <> "stars" ->
  exprKey expr <> "is-automated" ->
  exprKey expr <> "is-official" ->
  exprError expr = Some (ErrInvalidFilterType expr).
Proof.
  unfold exprKey, exprError, parseOne.
  destruct (strings.Split expr "=") as [|key rest] eqn:E.
  - now apply Split_not_nil in E.
  - simpl hd. intros H1 H2 H3.
    apply String.eqb_neq in H1, H2, H3. now rewrite H1, H2, H3.
Qed.

(** X5: one expression with an unrecognized key anywhere in the list makes
    the whole parse fail: no filter set is returned. *)
Theorem unknown_key_is_fatal :
  forall (opts : searchOpts) (expr : string),
    In expr (filter opts) ->
    exprKey expr <> "stars" ->
    exprKey expr <> "is-automated" ->
    exprKey expr <> "is-official" ->
    exists e, parseSearchFilter opts = Returned (inr e).
Proof.
  intros opts expr Hin H1 H2 H3.
  pose proof (parseLoop_first_invalid (filter opts) emptyFilterParams) as H.
  unfold parseSearchFilter.
  destruct (parseLoop (filter opts) emptyFilterParams) as [|[fp|e]];
    [contradiction| |now exists e].
  rewrite Forall_forall in H. specialize (H expr Hin).
  rewrite (unknown_key_error expr H1 H2 H3) in H. discriminate H.
Qed.

Lemma unknown_key_is_fatal_witness :
  In "is-trusted" (filter (optionsOf ["stars=3"; "is-trusted"] 0 false))
  /\ exists e,
      parseSearchFilter (optionsOf ["stars=3"; "is-trusted"] 0 false)
      = Returned (inr e).
Proof.
  split; [simpl; auto|].
  apply (unknown_key_is_fatal (optionsOf ["stars=3"; "is-trusted"] 0 false)
           "is-trusted").
  - simpl; auto.
  - vm_compute; discriminate.
  - vm_compute; discriminate.
  - vm_compute; discriminate.
Defined.

(** The flag value is [false] for exactly one spelling of the expression:
    the key, one [=], and the literal [false]. *)
Lemma isFalseValue_spelling (expr key : string) (rest : list string) :
  strings.Split expr "=" = key :: rest ->
  isFalseValue (key :: rest) = String.eqb expr (key ++ "=false").
Proof.
  intros Hsplit.
  assert (Hkey : strings.Contains key "=" = false).
  { pose proof (Split_pieces expr "=") as H. rewrite Hsplit in H.
    now inversion H. }
  destruct (String.eqb expr (key ++ "=false")) eqn:E.
  - apply String.eqb_eq in E. subst expr.
    rewrite (Split_app_sep key "false" "=" Hkey) in Hsplit.
    injection Hsplit as <-. reflexivity.
  - apply String.eqb_neq in E.
    destruct rest as [|v [|v' rest]]; try reflexivity.
    simpl. apply String.eqb_neq. intros ->. apply E.
    rewrite <- (Join_Split expr "="), Hsplit. reflexivity.
Qed.

(** X6: an [is-official] expression sets the official filter to true,
    unless it is spelled exactly [is-official=false], which sets it to
    false; so [is-official], [is-official=true], [is-official=no] and also
    [is-official=false=x] all ask for official images. *)
Theorem is_official_false_only_when_spelled_so :
  forall (expr : string) (exprs : list string) (fp : searchFilterParams),
    exprKey expr = "is-official" ->
    parseLoop (expr :: exprs) fp
    = parseLoop exprs
        (set_isOfficial (negb (String.eqb expr "is-official=false")) fp).
Proof.
  intros expr exprs fp Hkey. simpl. unfold parseOne.
  unfold exprKey in Hkey.
  destruct (strings.Split expr "=") as [|key rest] eqn:E;
    [now apply Split_not_nil in E|].
  simpl in Hkey. subst key.
  rewrite (isFalseValue_spelling expr _ rest E). reflexivity.
Qed.

Lemma is_official_false_only_when_spelled_so_witness :
  exprKey "is-official=false=x" = "is-official"
  /\ parseLoop ["is-official=false=x"] emptyFilterParams
     = Returned (inl (set_isOfficial true emptyFilterParams)).
Proof.
  split; [reflexivity|].
  exact (is_official_false_only_when_spelled_so "is-official=false=x" []
           emptyFilterParams eq_refl).
Defined.

(** X7: an [is-automated] expression sets the automated filter to true,
    unless it is spelled exactly [is-automated=false], which sets it to
    false. *)
Theorem is_automated_false_only_when_spelled_so :
  forall (expr : string) (exprs : list string) (fp : searchFilterParams),
    exprKey expr = "is-automated" ->
    parseLoop (expr :: exprs) fp
    = parseLoop exprs
        (set_isAutomated (negb (String.eqb expr "is-automated=false")) fp).
Proof.
  intros expr exprs fp Hkey. simpl. unfold parseOne.
  unfold exprKey in Hkey.
  destruct (strings.Split expr "=") as [|key rest] eqn:E;
    [now apply Split_not_nil in E|].
  simpl in Hkey. subst key.
  rewrite (isFalseValue_spelling expr _ rest E). reflexivity.
Qed.

Lemma is_automated_false_only_when_spelled_so_witness :
  exprKey "is-automated=False" = "is-automated"
  /\ parseLoop ["is-automated=False"] emptyFilterParams
     = Returned (inl (set_isAutomated true emptyFilterParams)).
Proof.
  split; [reflexivity|].
  exact (is_automated_false_only_when_spelled_so "is-automated=False" []
           emptyFilterParams eq_refl).
Defined.

Lemma fieldOf_ext (fp fp' : searchFilterParams) :
  (forall k, fieldOf k fp = fieldOf k fp') -> fp = fp'.
Proof.
  intros H. destruct fp as [s a o], fp' as [s' a' o'].
  pose proof (H KeyStars) as Hs. pose proof (H KeyAutomated) as Ha.
  pose proof (H KeyOfficial) as Ho. simpl in Hs, Ha, Ho.
  congruence.
Qed.

Lemma filterKey_eq_dec (k k' : filterKey) : {k = k'} + {k <> k'}.
Proof. decide equality. Qed.

(** Two accepted expressions with different keys can be swapped. *)
Lemma parseOne_swap (a b : string) (fp : searchFilterParams) :
  exprError a = None -> exprError b = None -> exprKey a <> exprKey b ->
  exists fp2,
    (r <- parseOne a fp ;;
     match r with inr e => Returned (inr e) | inl fp1 => parseOne b fp1 end)
    = Returned (inl fp2)
    /\ (r <- parseOne b fp ;;
        match r with inr e => Returned (inr e) | inl fp1 => parseOne a fp1 end)
       = Returned (inl fp2).
Proof.
  intros Ha Hb Hkeys.
  pose proof (parseOne_exprError a fp) as Ha1. rewrite Ha in Ha1.
  destruct Ha1 as [fa Hfa].
  pose proof (parseOne_exprError b fa) as Hb1. rewrite Hb in Hb1.
  destruct Hb1 as [fab Hfab].
  pose proof (parseOne_exprError b fp) as Hb2. rewrite Hb in Hb2.
  destruct Hb2 as [fb Hfb].
  pose proof (parseOne_exprError a fb) as Ha2. rewrite Ha in Ha2.
  destruct Ha2 as [fba Hfba].
  exists fab. rewrite Hfa, Hfb. simpl. rewrite Hfab, Hfba.
  split; [reflexivity|]. do 2 f_equal.
  destruct (parseOne_accepts a fp fa Hfa) as [ka [Hka [Hva Hoa]]].
  destruct (parseOne_accepts b fa fab Hfab) as [kb [Hkb [Hvb Hob]]].
  destruct (parseOne_accepts b fp fb Hfb) as [kb' [Hkb' [Hvb' Hob']]].
  destruct (parseOne_accepts a fb fba Hfba) as [ka' [Hka' [Hva' Hoa']]].
  assert (ka' = ka) as -> by (apply keyName_inj; congruence).
  assert (kb' = kb) as -> by (apply keyName_inj; congruence).
  assert (Hne : ka <> kb) by (intros ->; apply Hkeys; congruence).
  apply fieldOf_ext. intros k.
  destruct (filterKey_eq_dec k ka) as [->|Hka_ne].
  - rewrite (Hob ka Hne).
    destruct (Hva fb) as [x [Hx Hxv]]. rewrite Hfba in Hx.
    injection Hx as <-. exact Hxv.
  - destruct (filterKey_eq_dec k kb) as [->|Hkb_ne].
    + rewrite (Hoa' kb Hka_ne).
      destruct (Hvb' fa) as [x [Hx Hxv]]. rewrite Hfab in Hx.
      injection Hx as <-. now symmetry.
    + rewrite (Hoa' k Hka_ne), (Hob' k Hkb_ne).
      rewrite (Hob k Hkb_ne), (Hoa k Hka_ne). reflexivity.
Qed.

(** X8: the order of two neighbouring accepted expressions with different
    keys does not matter: swapping them gives the same parse result. *)
Theorem different_keys_commute :
  forall (opts opts' : searchOpts) (pre post : list string) (a b : string),
    filter opts = pre ++ a :: b :: post ->
    filter opts' = pre ++ b :: a :: post ->
    exprError a = None ->
    exprError b = None ->
    exprKey a <> exprKey b ->
    parseSearchFilter opts = parseSearchFilter opts'.
Proof.
  intros opts opts' pre post a b Hf Hf' Ha Hb Hkeys.
  unfold parseSearchFilter. rewrite Hf, Hf', !parseLoop_app.
  destruct (parseLoop pre emptyFilterParams) as [|[fp|e]]; simpl;
    try reflexivity.
  destruct (parseOne_swap a b fp Ha Hb Hkeys) as [fp2 [H1 H2]].
  destruct (parseOne a fp) as [|[fa|ea]]; simpl in H1; try discriminate H1.
  destruct (parseOne b fp) as [|[fb|eb]]; simpl in H2; try discriminate H2.
  simpl. rewrite H1, H2. reflexivity.
Qed.

Lemma different_keys_commute_witness :
  parseSearchFilter
    (optionsOf ["is-automated"; "stars=3"; "is-official=false"] 0 false)
  = parseSearchFilter
      (optionsOf ["is-automated"; "is-official=false"; "stars=3"] 0 false).
Proof.
  apply (different_keys_commute
           (optionsOf ["is-automated"; "stars=3"; "is-official=false"] 0 false)
           (optionsOf ["is-automated"; "is-official=false"; "stars=3"] 0 false)
           ["is-automated"] [] "stars=3" "is-official=false").
  - reflexivity.
  - reflexivity.
  - reflexivity.
  - reflexivity.
  - vm_compute; discriminate.
Defined.

(** ** More on the aggregation (lines 167-236) *)

Section Contributions.

Variable SearchRegistry :
  nat -> string -> string -> Z -> list docker.SearchResult + error.
Variables (term : string) (opts : searchOpts) (flt : searchFilterParams).

(** The loop over the registries, whatever they answer, in closed form. *)
Lemma registryLoop_closed_form (registries : list string) :
  forall (k : nat) (st : aggState),
    registryLoop SearchRegistry term registries opts flt (queryLimit opts)
      k st
    = Returned
        {| paramsArr :=
             paramsArr st
             ++ contributions SearchRegistry term opts flt registries k;
           trace :=
             trace st
             ++ queryTrace SearchRegistry term (queryLimit opts)
                  registries k |}.
Proof.
  induction registries as [|reg registries IH]; intros k st.
  - simpl. rewrite !app_nil_r. now destruct st.
  - destruct (SearchRegistry k reg term (queryLimit opts))
      as [results|e] eqn:E.
    + rewrite (registryLoop_answered _ _ _ _ _ _ _ _ _ _ E), IH.
      simpl. rewrite E. simpl. now rewrite <- !app_assoc.
    + rewrite (registryLoop_failed _ _ _ _ _ _ _ _ _ _ E), IH.
      simpl. rewrite E. simpl. now rewrite <- !app_assoc.
Qed.

Lemma getSearchOutput_closed_form (registries : list string) :
  getSearchOutput SearchRegistry term registries opts flt
  = Returned
      {| records := contributions SearchRegistry term opts flt registries 0;
         err := None;
         events :=
           queryTrace SearchRegistry term (queryLimit opts) registries 0 |}.
Proof.
  unfold getSearchOutput. now rewrite registryLoop_closed_form.
Qed.

End Contributions.

Lemma contributions_shift
  (SearchRegistry :
     nat -> string -> string -> Z -> list docker.SearchResult + error)
  (term : string) (opts : searchOpts) (flt : searchFilterParams) (n : nat)
  (registries : list string) :
  forall k,
    contributions (fun j => SearchRegistry (n + j)%nat) term opts flt
      registries k
    = contributions SearchRegistry term opts flt registries (n + k).
Proof.
  induction registries as [|reg registries IH]; intros k; simpl;
    [reflexivity|].
  rewrite IH. now rewrite Nat.add_succ_r.
Qed.

Lemma queryTrace_shift
  (SearchRegistry :
     nat -> string -> string -> Z -> list docker.SearchResult + error)
  (term : string) (lim : Z) (n : nat) (registries : list string) :
  forall k,
    queryTrace (fun j => SearchRegistry (n + j)%nat) term lim registries k
    = queryTrace SearchRegistry term lim registries (n + k).
Proof.
  induction registries as [|reg registries IH]; intros k; simpl;
    [reflexivity|].
  rewrite IH. now rewrite Nat.add_succ_r.
Qed.

Lemma contributions_app
  (SearchRegistry :
     nat -> string -> string -> Z -> list docker.SearchResult + error)
  (term : string) (opts : searchOpts) (flt : searchFilterParams)
  (regs1 regs2 : list string) :
  forall k,
    contributions SearchRegistry term opts flt (regs1 ++ regs2) k
    = contributions SearchRegistry term opts flt regs1 k
      ++ contributions SearchRegistry term opts flt regs2
           (List.length regs1 + k).
Proof.
  induction regs1 as [|reg regs1 IH]; intros k; simpl; [reflexivity|].
  rewrite IH, <- app_assoc. now rewrite Nat.add_succ_r.
Qed.

Lemma queryTrace_app
  (SearchRegistry :
     nat -> string -> string -> Z -> list docker.SearchResult + error)
  (term : string) (lim : Z) (regs1 regs2 : list string) :
  forall k,
    queryTrace SearchRegistry term lim (regs1 ++ regs2) k
    = queryTrace SearchRegistry term lim regs1 k
      ++ queryTrace SearchRegistry term lim regs2 (List.length regs1 + k).
Proof.
  induction regs1 as [|reg regs1 IH]; intros k; simpl; [reflexivity|].
  rewrite IH, <- app_assoc. now rewrite Nat.add_succ_r.
Qed.

(** X9: whatever the registries answer, the aggregation returns with a nil
    error the records of the registries that answered, registry by registry
    in the order given and within a registry in the order returned; every
    registry is queried once, and exactly the failures are logged. *)
Theorem aggregation_concatenates_in_registry_order :
  forall (SearchRegistry :
            nat -> string -> string -> Z -> list docker.SearchResult + error)
         (term : string) (registries : list string) (opts : searchOpts)
         (flt : searchFilterParams),
    getSearchOutput SearchRegistry term registries opts flt
    = Returned
        {| records :=
             contributions SearchRegistry term opts flt registries 0;
           err := None;
           events :=
             queryTrace SearchRegistry term (queryLimit opts)
               registries 0 |}.
Proof.
  intros. apply getSearchOutput_closed_form.
Qed.

(** X10: searching a concatenation of two registry lists gives the records
    of the first list followed by the records of the second (whose queries
    come after those of the first), and the same for the trace. *)
Theorem aggregation_of_appended_registries :
  forall (SearchRegistry :
            nat -> string -> string -> Z -> list docker.SearchResult + error)
         (term : string) (regs1 regs2 : list string) (opts : searchOpts)
         (flt : searchFilterParams),
  exists out1 out2,
    getSearchOutput SearchRegistry term regs1 opts flt = Returned out1
    /\ getSearchOutput
         (fun k => SearchRegistry (List.length regs1 + k)%nat)
         term regs2 opts flt = Returned out2
    /\ getSearchOutput SearchRegistry term (regs1 ++ regs2) opts flt
       = Returned {| records := records out1 ++ records out2;
                     err := None;
                     events := events out1 ++ events out2 |}.
Proof.
  intros SR term regs1 regs2 opts flt.
  rewrite !getSearchOutput_closed_form.
  eexists. eexists. split; [reflexivity|]. split; [reflexivity|].
  simpl. rewrite contributions_app, queryTrace_app.
  now rewrite contributions_shift, queryTrace_shift.
Qed.

Lemma In_firstn_In {A : Type} (x : A) (n : nat) :
  forall l, In x (firstn n l) -> In x l.
Proof.
  induction n as [|n IH]; intros [|a l]; simpl; try contradiction.
  intros [->|H]; [now left|right; now apply IH].
Qed.

Lemma filter_length_le {A : Type} (f : A -> bool) (l : list A) :
  (List.length (List.filter f l) <= List.length l)%nat.
Proof.
  induction l as [|a l IH]; simpl; [lia|].
  destruct (f a); simpl; lia.
Qed.

Lemma registryRecords_length (opts : searchOpts) (flt : searchFilterParams)
  (reg : string) (results : list docker.SearchResult) :
  len (registryRecords opts flt reg results) <= Z.max maxQueries (limit opts).
Proof.
  unfold registryRecords, len. rewrite length_map.
  pose proof (filter_length_le (accepted opts flt)
                (firstn (Z.to_nat (resultLimit opts results)) results)) as H.
  rewrite length_firstn in H.
  assert (Hcap : resultLimit opts results <= Z.max maxQueries (limit opts)).
  { rewrite resultLimit_cases. case_if; lia. }
  unfold maxQueries in *. lia.
Qed.

Lemma contributions_length
  (SearchRegistry :
     nat -> string -> string -> Z -> list docker.SearchResult + error)
  (term : string) (opts : searchOpts) (flt : searchFilterParams)
  (registries : list string) :
  forall k,
    len (contributions SearchRegistry term opts flt registries k)
    <= len registries * Z.max maxQueries (limit opts).
Proof.
  induction registries as [|reg registries IH]; intros k;
    cbn [contributions].
  - unfold len. simpl. lia.
  - specialize (IH (S k)). unfold len in *.
    rewrite length_app. cbn [List.length]. rewrite Nat2Z.inj_succ.
    assert (H : Z.of_nat
                  (List.length
                     match SearchRegistry k reg term (queryLimit opts) with
                     | inl results => registryRecords opts flt reg results
                     | inr _ => []
                     end)
                <= Z.max maxQueries (limit opts)).
    { destruct (SearchRegistry k reg term (queryLimit opts)).
      - apply registryRecords_length.
      - simpl. unfold maxQueries. lia. }
    set (M := Z.max maxQueries (limit opts)) in *. nia.
Qed.

(** X11: a search over [n] registries returns at most [n * max(25, limit)]
    records. *)
Theorem record_count_bound :
  forall (SearchRegistry :
            nat -> string -> string -> Z -> list docker.SearchResult + error)
         (term : string) (registries : list string) (opts : searchOpts)
         (flt : searchFilterParams),
  exists out,
    getSearchOutput SearchRegistry term registries opts flt = Returned out
    /\ len (records out) <= len registries * Z.max maxQueries (limit opts).
Proof.
  intros SR term registries opts flt.
  rewrite getSearchOutput_closed_form. eexists. split; [reflexivity|].
  apply contributions_length.
Qed.

Lemma contributions_all_failed
  (SearchRegistry :
     nat -> string -> string -> Z -> list docker.SearchResult + error)
  (term : string) (opts : searchOpts) (flt : searchFilterParams)
  (registries : list string) :
  (forall k reg, In reg registries ->
                 exists e, SearchRegistry k reg term (queryLimit opts) = inr e)
  ->
  forall k, contributions SearchRegistry term opts flt registries k = [].
Proof.
  induction registries as [|reg registries IH]; intros Hfail k; simpl;
    [reflexivity|].
  destruct (Hfail k reg (or_introl eq_refl)) as [e ->]. simpl.
  apply IH. intros k' reg' Hin. apply Hfail. now right.
Qed.

(** X12: when every registry query fails, the search is not an error: no
    record is returned, the renderer is not consulted, and
    [generateSearchOutput] returns nil. *)
Theorem all_registries_failing_is_not_an_error :
  forall (SearchRegistry :
            nat -> string -> string -> Z -> list docker.SearchResult + error)
         (Out : string -> list searchParams -> option error)
         (term : string) (registries : list string) (opts : searchOpts)
         (flt : searchFilterParams),
    (forall k reg, In reg registries ->
                   exists e,
                     SearchRegistry k reg term (queryLimit opts) = inr e) ->
    (exists evs,
        getSearchOutput SearchRegistry term registries opts flt
        = Returned {| records := []; err := None; events := evs |})
    /\ generateSearchOutput SearchRegistry Out term registries opts flt
       = Returned None.
Proof.
  intros SR Out term registries opts flt Hfail.
  unfold generateSearchOutput. rewrite getSearchOutput_closed_form.
  rewrite (contributions_all_failed SR term opts flt registries Hfail).
  split; [eexists|]; reflexivity.
Qed.

Lemma all_registries_failing_is_not_an_error_witness :
  generateSearchOutput unreachable rejectingTemplate "alpine"
    ["docker.io"; "quay.io"] (optionsOf [] 0 false) emptyFilterParams
  = Returned None.
Proof.
  apply (all_registries_failing_is_not_an_error unreachable rejectingTemplate
           "alpine" ["docker.io"; "quay.io"] (optionsOf [] 0 false)
           emptyFilterParams).
  intros k reg _. eexists. reflexivity.
Defined.

(** Where a record of the output comes from. *)
Lemma contributions_provenance
  (SearchRegistry :
     nat -> string -> string -> Z -> list docker.SearchResult + error)
  (term : string) (opts : searchOpts) (flt : searchFilterParams)
  (registries : list string) (p : searchParams) :
  forall k0,
    In p (contributions SearchRegistry term opts flt registries k0) ->
    exists (k : nat) (reg : string) (results : list docker.SearchResult)
           (r : docker.SearchResult),
      nth_error registries k = Some reg
      /\ SearchRegistry (k0 + k)%nat reg term (queryLimit opts) = inl results
      /\ In r (firstn (Z.to_nat (resultLimit opts results)) results)
      /\ accepted opts flt r = true
      /\ p = project opts reg (indexOf reg) r.
Proof.
  induction registries as [|reg registries IH]; intros k0; simpl;
    [contradiction|].
  intros H. apply in_app_or in H. destruct H as [H|H].
  - destruct (SearchRegistry k0 reg term (queryLimit opts))
      as [results|e] eqn:E; [|contradiction].
    unfold registryRecords in H. apply in_map_iff in H.
    destruct H as [r [Hp Hr]]. apply filter_In in Hr. destruct Hr as [Hr Ha].
    exists 0%nat, reg, results, r. rewrite Nat.add_0_r.
    repeat split; auto.
  - destruct (IH (S k0) H) as [k [reg' [results [r [Hn [Hq Hrest]]]]]].
    exists (S k), reg', results, r. split; [exact Hn|].
    rewrite Nat.add_succ_r. split; [exact Hq|exact Hrest].
Qed.

(** X13: the aggregation invents nothing: every record of the output is
    the projection of a raw result that a listed registry answered, that
    lies among the first [resultLimit] results of that answer, and that was
    accepted; raw results beyond the cap never appear, even when earlier
    ones are filtered out. *)
Theorem every_record_has_a_source :
  forall (SearchRegistry :
            nat -> string -> string -> Z -> list docker.SearchResult + error)
         (term : string) (registries : list string) (opts : searchOpts)
         (flt : searchFilterParams) (out : searchOutput) (p : searchParams),
    getSearchOutput SearchRegistry term registries opts flt = Returned out ->
    In p (records out) ->
    exists (k : nat) (reg : string) (results : list docker.SearchResult)
           (r : docker.SearchResult),
      nth_error registries k = Some reg
      /\ SearchRegistry k reg term (queryLimit opts) = inl results
      /\ In r (firstn (Z.to_nat (resultLimit opts results)) results)
      /\ accepted opts flt r = true
      /\ p = project opts reg (indexOf reg) r.
Proof.
  intros SR term registries opts flt out p Hrun Hin.
  rewrite getSearchOutput_closed_form in Hrun. injection Hrun as <-.
  simpl in Hin.
  exact (contributions_provenance SR term opts flt registries p 0%nat Hin).
Qed.

Lemma every_record_has_a_source_witness :
  exists (k : nat) (reg : string) (results : list docker.SearchResult)
         (r : docker.SearchResult),
    nth_error ["quay.io"; "docker.io"] k = Some reg
    /\ firstFails tenResults k reg "alpine"
         (queryLimit (optionsOf ["stars=9"] 0 false)) = inl results
    /\ In r (firstn (Z.to_nat (resultLimit (optionsOf ["stars=9"] 0 false)
                                 results)) results)
    /\ accepted (optionsOf ["stars=9"] 0 false)
         (set_stars 9 emptyFilterParams) r = true
    /\ {| Index := "docker.io";
          Name := "docker.io/library/alpine";
          Description := "a sample image";
          Stars := 9;
          Official := "";
          Automated := "[OK]" |}
       = project (optionsOf ["stars=9"] 0 false) reg (indexOf reg) r.
Proof.
  refine (every_record_has_a_source (firstFails tenResults) "alpine"
            ["quay.io"; "docker.io"] (optionsOf ["stars=9"] 0 false)
            (set_stars 9 emptyFilterParams) _ _ eq_refl _).
  simpl. right. left. reflexivity.
Defined.

Lemma contributions_complete
  (SearchRegistry :
     nat -> string -> string -> Z -> list docker.SearchResult + error)
  (term : string) (opts : searchOpts) (flt : searchFilterParams)
  (reg : string) (results : list docker.SearchResult)
  (r : docker.SearchResult) :
  In r (firstn (Z.to_nat (resultLimit opts results)) results) ->
  accepted opts flt r = true ->
  forall (registries : list string) (k k0 : nat),
    nth_error registries k = Some reg ->
    SearchRegistry (k0 + k)%nat reg term (queryLimit opts) = inl results ->
    In (project opts reg (indexOf reg) r)
       (contributions SearchRegistry term opts flt registries k0).
Proof.
  intros Hr Ha. induction registries as [|reg' registries IH];
    intros [|k] k0; simpl; try discriminate.
  - intros [= ->]. rewrite Nat.add_0_r. intros ->.
    apply in_or_app. left. unfold registryRecords.
    apply in_map. apply filter_In. now split.
  - intros Hn Hq. apply in_or_app. right.
    apply (IH k (S k0) Hn). now rewrite Nat.add_succ_l, <- Nat.add_succ_r.
Qed.

(** X14: nothing accepted is lost: an accepted raw result among the first
    [resultLimit] results of a registry that answered has its projection
    in the output. *)
Theorem every_accepted_result_is_returned :
  forall (SearchRegistry :
            nat -> string -> string -> Z -> list docker.SearchResult + error)
         (term : string) (registries : list string) (opts : searchOpts)
         (flt : searchFilterParams) (k : nat) (reg : string)
         (results : list docker.SearchResult) (r : docker.SearchResult),
    nth_error registries k = Some reg ->
    SearchRegistry k reg term (queryLimit opts) = inl results ->
    In r (firstn (Z.to_nat (resultLimit opts results)) results) ->
    accepted opts flt r = true ->
    exists out,
      getSearchOutput SearchRegistry term registries opts flt = Returned out
      /\ In (project opts reg (indexOf reg) r) (records out).
Proof.
  intros SR term registries opts flt k reg results r Hn Hq Hr Ha.
  rewrite getSearchOutput_closed_form. eexists. split; [reflexivity|].
  simpl.
  exact (contributions_complete SR term opts flt reg results r Hr Ha
           registries k 0%nat Hn Hq).
Qed.

Lemma every_accepted_result_is_returned_witness :
  exists out,
    getSearchOutput (firstFails tenResults) "alpine" ["quay.io"; "docker.io"]
      (optionsOf ["is-automated"] 2 false)
      (set_isAutomated true emptyFilterParams) = Returned out
    /\ In (project (optionsOf ["is-automated"] 2 false) "docker.io"
             (indexOf "docker.io") (sampleResult "alpine" 9))
          (records out).
Proof.
  apply (every_accepted_result_is_returned (firstFails tenResults) "alpine"
           ["quay.io"; "docker.io"] (optionsOf ["is-automated"] 2 false)
           (set_isAutomated true emptyFilterParams) 1%nat "docker.io"
           tenResults (sampleResult "alpine" 9)).
  - reflexivity.
  - reflexivity.
  - simpl. right. left. reflexivity.
  - reflexivity.
Defined.

(** X15: when filter expressions were given, every record of the output
    satisfies the filter set: its star count is at least the minimum, and
    its official and automated markers are those the set asks for. *)
Theorem output_satisfies_filters :
  forall (SearchRegistry :
            nat -> string -> string -> Z -> list docker.SearchResult + error)
         (term : string) (registries : list string) (opts : searchOpts)
         (flt : searchFilterParams) (out : searchOutput) (p : searchParams),
    getSearchOutput SearchRegistry term registries opts flt = Returned out ->
    filter opts <> [] ->
    In p (records out) ->
    stars flt <= Stars p
    /\ match isOfficial flt with
       | Some b => Official p = marker b
       | None => True
       end
    /\ match isAutomated flt with
       | Some b => Automated p = marker b
       | None => True
       end.
Proof.
  intros SR term registries opts flt out p Hrun Hf Hin.
  rewrite getSearchOutput_closed_form in Hrun. injection Hrun as <-.
  simpl in Hin.
  destruct (contributions_provenance SR term opts flt registries p 0%nat Hin)
    as [k [reg [results [r [_ [_ [_ [Ha ->]]]]]]]].
  unfold accepted in Ha.
  replace (0 <? len (filter opts)) with true in Ha.
  2:{ symmetry. apply Z.ltb_lt. unfold len.
      destruct (filter opts); [congruence|simpl; lia]. }
  unfold matches in Ha. apply andb_true_iff in Ha. destruct Ha as [Ha Hs].
  apply andb_true_iff in Ha. destruct Ha as [Hau Hof].
  unfold matchesStarFilter in Hs. apply Z.leb_le in Hs.
  unfold matchesOfficialFilter in Hof. unfold matchesAutomatedFilter in Hau.
  simpl. split; [exact Hs|]. split.
  - destruct (isOfficial flt) as [b|]; [|exact I].
    apply Bool.eqb_prop in Hof. now rewrite Hof.
  - destruct (isAutomated flt) as [b|]; [|exact I].
    apply Bool.eqb_prop in Hau. now rewrite Hau.
Qed.

Lemma output_satisfies_filters_witness :
  filter (optionsOf ["stars=9"; "is-automated"] 0 false) <> []
  /\ stars {| stars := 9; isAutomated := Some true; isOfficial := None |}
     <= Stars (project (optionsOf ["stars=9"; "is-automated"] 0 false)
                 "docker.io" "docker.io" (sampleResult "alpine" 10))
  /\ Automated (project (optionsOf ["stars=9"; "is-automated"] 0 false)
                  "docker.io" "docker.io" (sampleResult "alpine" 10))
     = marker true.
Proof.
  split; [discriminate|].
  assert (H := output_satisfies_filters (answering tenResults) "alpine"
                 ["docker.io"]
                 (optionsOf ["stars=9"; "is-automated"] 0 false)
                 {| stars := 9; isAutomated := Some true;
                    isOfficial := None |}
                 _ (project (optionsOf ["stars=9"; "is-automated"] 0 false)
                      "docker.io" "docker.io" (sampleResult "alpine" 10))
                 eq_refl ltac:(discriminate)
                 ltac:(simpl; left; reflexivity)).
  destruct H as [H1 [_ H2]]. split; [exact H1|exact H2].
Defined.

(** X16: without filter expressions the filter set is not consulted at
    all: the output is the same for every filter set. *)
Theorem no_expressions_no_filtering :
  forall (SearchRegistry :
            nat -> string -> string -> Z -> list docker.SearchResult + error)
         (term : string) (registries : list string) (opts : searchOpts)
         (flt flt' : searchFilterParams),
    filter opts = [] ->
    getSearchOutput SearchRegistry term registries opts flt
    = getSearchOutput SearchRegistry term registries opts flt'.
Proof.
  intros SR term registries opts flt flt' Hf.
  rewrite !getSearchOutput_closed_form. do 2 f_equal.
  generalize 0%nat.
  induction registries as [|reg registries IH]; intros k; simpl;
    [reflexivity|].
  rewrite IH. f_equal.
  destruct (SR k reg term (queryLimit opts)); [|reflexivity].
  unfold registryRecords. f_equal. apply filter_ext.
  intros r. unfold accepted. now rewrite Hf.
Qed.

Lemma no_expressions_no_filtering_witness :
  getSearchOutput (answering tenResults) "alpine" ["docker.io"]
    (optionsOf [] 0 false) (set_stars 100 emptyFilterParams)
  = getSearchOutput (answering tenResults) "alpine" ["docker.io"]
      (optionsOf [] 0 false) emptyFilterParams.
Proof.
  exact (no_expressions_no_filtering (answering tenResults) "alpine"
           ["docker.io"] (optionsOf [] 0 false)
           (set_stars 100 emptyFilterParams) emptyFilterParams eq_refl).
Defined.

(** ** The projected description (lines 216-219) *)

Lemma Contains_append (a b : string) (c : ascii) :
  strings.Contains (a ++ b) c = strings.Contains a c || strings.Contains b c.
Proof.
  induction a as [|x a IH]; simpl; [reflexivity|].
  now rewrite IH, orb_assoc.
Qed.

Lemma Contains_prefix (n : nat) (c : ascii) :
  forall s, strings.Contains s c = false ->
            strings.Contains (strings.prefix n s) c = false.
Proof.
  induction n as [|n IH]; intros [|a s]; simpl; try reflexivity.
  intros H. apply orb_false_iff in H. destruct H as [Ha Hs].
  now rewrite Ha, IH.
Qed.

Lemma Replace_removes (s : string) (old new : ascii) :
  new <> old -> strings.Contains (strings.Replace s old new) old = false.
Proof.
  intros Hne. apply Ascii.eqb_neq in Hne.
  induction s as [|a s IH]; simpl; [reflexivity|].
  rewrite IH, orb_false_r.
  destruct (Ascii.eqb a old) eqn:E; [exact Hne|exact E].
Qed.

Lemma describe_no_newline (opts : searchOpts) (raw : string) :
  strings.Contains (describe opts raw) "010" = false.
Proof.
  assert (H : strings.Contains (strings.Replace raw "010" " ") "010" = false)
    by (apply Replace_removes; discriminate).
  unfold describe. case_if; [|exact H].
  rewrite Contains_append, Contains_prefix by exact H. reflexivity.
Qed.

Lemma describe_length (opts : searchOpts) (raw : string) :
  noTrunc opts = false -> slen (describe opts raw) <= 47.
Proof.
  intros Hnt. unfold describe, slen. rewrite Hnt, andb_true_r. simpl negb.
  destruct (44 <? Z.of_nat (String.length (strings.Replace raw "010" " ")))
    eqn:E.
  - apply Z.ltb_lt in E. rewrite append_length, prefix_length.
    + simpl. lia.
    + change (Z.to_nat descriptionTruncLength) with 44%nat. lia.
  - apply Z.ltb_ge in E. lia.
Qed.

(** X17: no description of the output contains a newline, and unless
    [noTrunc] is set none is longer than 47 bytes (44 and the three
    dots). *)
Theorem output_descriptions_are_one_short_line :
  forall (SearchRegistry :
            nat -> string -> string -> Z -> list docker.SearchResult + error)
         (term : string) (registries : list string) (opts : searchOpts)
         (flt : searchFilterParams) (out : searchOutput) (p : searchParams),
    getSearchOutput SearchRegistry term registries opts flt = Returned out ->
    In p (records out) ->
    strings.Contains (Description p) "010" = false
    /\ (if noTrunc opts then True else slen (Description p) <= 47).
Proof.
  intros SR term registries opts flt out p Hrun Hin.
  rewrite getSearchOutput_closed_form in Hrun. injection Hrun as <-.
  simpl in Hin.
  destruct (contributions_provenance SR term opts flt registries p 0%nat Hin)
    as [k [reg [results [r [_ [_ [_ [_ ->]]]]]]]].
  simpl. split; [apply describe_no_newline|].
  destruct (noTrunc opts) eqn:E; [exact I|]. now apply describe_length.
Qed.

Lemma output_descriptions_are_one_short_line_witness :
  strings.Contains
    (Description (project (optionsOf [] 0 false) "docker.io" "docker.io"
                    verboseResult)) "010" = false
  /\ slen (Description (project (optionsOf [] 0 false) "docker.io"
                          "docker.io" verboseResult)) <= 47.
Proof.
  exact (output_descriptions_are_one_short_line (answering [verboseResult])
           "alpine" ["docker.io"] (optionsOf [] 0 false) emptyFilterParams
           _ (project (optionsOf [] 0 false) "docker.io" "docker.io"
                verboseResult)
           eq_refl (or_introl eq_refl)).
Defined.

(** ** The output template (lines 124-131) *)

Section ReplacePair.

Variables old1 old2 new : ascii.
Hypothesis new_old1 : new <> old1.
Hypothesis new_old2 : new <> old2.

(** The first byte of the replaced string is the first byte of the string
    or the replacement byte. *)
Lemma ReplacePair_head (s : string) :
  match strings.ReplacePair s old1 old2 new with
  | EmptyString => s = EmptyString
  | String h _ => exists b s', s = String b s' /\ (h = b \/ h = new)
  end.
Proof.
  destruct s as [|a [|b s]]; simpl; [reflexivity|eauto|].
  destruct (Ascii.eqb a old1 && Ascii.eqb b old2); eauto.
Qed.

Lemma ReplacePair_step (a b : ascii) (s : string) :
  strings.ReplacePair (String a (String b s)) old1 old2 new
  = if Ascii.eqb a old1 && Ascii.eqb b old2
    then String new (strings.ReplacePair s old1 old2 new)
    else String a (strings.ReplacePair (String b s) old1 old2 new).
Proof. reflexivity. Qed.

Lemma hasPair_step (x : ascii) (t : string) :
  hasPair (String x t) old1 old2
  = match t with
    | EmptyString => false
    | String h _ =>
        (Ascii.eqb x old1 && Ascii.eqb h old2) || hasPair t old1 old2
    end.
Proof. reflexivity. Qed.

Lemma ReplacePair_removes_bounded (n : nat) :
  forall s, (String.length s <= n)%nat ->
            hasPair (strings.ReplacePair s old1 old2 new) old1 old2 = false.
Proof.
  induction n as [|n IH]; intros s Hlen.
  - destruct s; [reflexivity|simpl in Hlen; lia].
  - destruct s as [|a [|b s]]; [reflexivity|reflexivity|].
    simpl in Hlen. rewrite ReplacePair_step.
    destruct (Ascii.eqb a old1 && Ascii.eqb b old2) eqn:E;
      rewrite hasPair_step.
    + rewrite (IH s) by lia.
      destruct (strings.ReplacePair s old1 old2 new); [reflexivity|].
      apply Ascii.eqb_neq in new_old1. now rewrite new_old1.
    + rewrite (IH (String b s)) by (simpl; lia).
      pose proof (ReplacePair_head (String b s)) as Hh.
      destruct (strings.ReplacePair (String b s) old1 old2 new) as [|h t];
        [reflexivity|].
      destruct Hh as [b' [s' [Heq [Hh|Hh]]]]; subst h.
      * injection Heq as <- <-. now rewrite E.
      * apply Ascii.eqb_neq in new_old2. rewrite new_old2.
        now rewrite andb_false_r.
Qed.

Lemma ReplacePair_identity_bounded (n : nat) :
  forall s, (String.length s <= n)%nat ->
            hasPair s old1 old2 = false ->
            strings.ReplacePair s old1 old2 new = s.
Proof.
  induction n as [|n IH]; intros s Hlen.
  - destruct s; [reflexivity|simpl in Hlen; lia].
  - destruct s as [|a [|b s]]; [reflexivity|reflexivity|].
    simpl in Hlen. rewrite ReplacePair_step, hasPair_step.
    intros H. apply orb_false_iff in H. destruct H as [Hp Hrest].
    rewrite Hp. f_equal. apply IH; [simpl; lia|exact Hrest].
Qed.

End ReplacePair.

(** X18: the template handed to the renderer never contains the two bytes
    backslash and [t]: every such pair of the user's format has become a
    tab, and the default template has none. *)
Theorem format_has_no_escaped_tab :
  forall format : string,
    hasPair (genSearchFormat format) "\" "t" = false.
Proof.
  intros format. unfold genSearchFormat.
  destruct (negb (String.eqb format "")); [|reflexivity].
  apply (ReplacePair_removes_bounded "\" "t" "009"
           ltac:(discriminate) ltac:(discriminate)
           (String.length format)).
  lia.
Qed.

(** X19: a non-empty format without the pair backslash-[t] is handed to
    the renderer unchanged. *)
Theorem format_without_escapes_is_kept :
  forall format : string,
    format <> "" ->
    hasPair format "\" "t" = false ->
    genSearchFormat format = format.
Proof.
  intros format Hne Hp. unfold genSearchFormat.
  apply String.eqb_neq in Hne. rewrite Hne. simpl.
  apply (ReplacePair_identity_bounded "\" "t" "009" (String.length format));
    [lia|exact Hp].
Qed.

Lemma format_without_escapes_is_kept_witness :
  genSearchFormat "table {{.Name}} {{.Stars}}" = "table {{.Name}} {{.Stars}}".
Proof.
  apply (format_without_escapes_is_kept "table {{.Name}} {{.Stars}}").
  - discriminate.
  - reflexivity.
Defined.

(** ** The command (lines 81-122 and 152-165) *)

Lemma suffixFrom_append (front rest : string) (sep : ascii) :
  strings.suffixFrom (S (String.length front)) (front ++ String sep rest)
  = Some rest.
Proof. induction front as [|a front IH]; simpl; [reflexivity|exact IH]. Qed.

Section CommandProperties.

Variable GetRegistry : string -> string + error.
Variable GetRegistries : list string + error.
Variable getAuthFile : string -> string.

(** X20: with no argument or more than one, [searchCmd] returns its usage
    error and nothing else happens: neither the registry configuration nor
    a registry nor the renderer has a say. *)
Theorem wrong_argument_count_is_a_usage_error :
  forall (SearchRegistry :
            nat -> string -> string -> Z -> list docker.SearchResult + error)
         (Out : string -> list searchParams -> option error)
         (c : cliconfig.SearchValues),
    List.length (cliconfig.InputArgs c) <> 1%nat ->
    searchCmd GetRegistry GetRegistries getAuthFile SearchRegistry Out c
    = Returned (Some (match cliconfig.InputArgs c with
                      | [] => ErrNoArgument
                      | _ :: _ => ErrTooManyArguments
                      end)).
Proof.
  intros SR Out c Hlen. unfold searchCmd, len.
  destruct (cliconfig.InputArgs c) as [|a [|b args]].
  - reflexivity.
  - now contradict Hlen.
  - replace (1 <? Z.of_nat (List.length (a :: b :: args))) with true;
      [reflexivity|].
    symmetry. apply Z.ltb_lt. simpl List.length. lia.
Qed.

(** X21: when the filter expressions do not parse, [searchCmd] never
    returns nil, and what it returns is the same whatever the registries
    and the renderer would do: the search is refused before any registry
    is queried. *)
Theorem invalid_filter_stops_the_search :
  forall (SearchRegistry SearchRegistry' :
            nat -> string -> string -> Z -> list docker.SearchResult + error)
         (Out Out' : string -> list searchParams -> option error)
         (c : cliconfig.SearchValues) (e : error),
    parseLoop (cliconfig.Filter c) emptyFilterParams = Returned (inr e) ->
    searchCmd GetRegistry GetRegistries getAuthFile SearchRegistry Out c
    = searchCmd GetRegistry GetRegistries getAuthFile SearchRegistry' Out' c
    /\ searchCmd GetRegistry GetRegistries getAuthFile SearchRegistry Out c
       <> Returned None.
Proof.
  intros SR SR' Out Out' c e Hparse. unfold searchCmd.
  destruct (1 <? len (cliconfig.InputArgs c)); [split; [reflexivity|discriminate]|].
  destruct (len (cliconfig.InputArgs c) =? 0); [split; [reflexivity|discriminate]|].
  destruct (cliconfig.InputArgs c) as [|term0 args];
    [split; [reflexivity|discriminate]|].
  destruct (GetRegistry term0) as [registry|err];
    [|split; [reflexivity|discriminate]].
  destruct (if negb (String.eqb registry "")
            then match strings.suffixFrom (S (String.length registry)) term0
                 with
                 | Some t => Returned t
                 | None => Panicked
                 end
            else Returned term0) as [|term];
    [split; [reflexivity|discriminate]|].
  simpl run_bind.
  destruct (getRegistries GetRegistries registry) as [registries|err];
    [|split; [reflexivity|discriminate]].
  unfold parseSearchFilter. simpl filter. rewrite Hparse. simpl.
  split; [reflexivity|discriminate].
Qed.

(** X22: for a term that names a registry, [registry/rest], only that
    registry is searched, for [rest]; the system registries are not
    looked up. *)
Theorem explicit_registry_is_the_only_one_searched :
  forall (SearchRegistry :
            nat -> string -> string -> Z -> list docker.SearchResult + error)
         (Out : string -> list searchParams -> option error)
         (c : cliconfig.SearchValues) (registry rest : string)
         (flt : searchFilterParams),
    registry <> "" ->
    cliconfig.InputArgs c = [(registry ++ "/" ++ rest)%string] ->
    GetRegistry (registry ++ "/" ++ rest)%string = inl registry ->
    parseLoop (cliconfig.Filter c) emptyFilterParams = Returned (inl flt) ->
    searchCmd GetRegistry GetRegistries getAuthFile SearchRegistry Out c
    = (e <- generateSearchOutput SearchRegistry Out rest [registry]
              (searchOptsOf getAuthFile c) flt ;;
       Returned (option_map ErrSearch e)).
Proof.
  intros SR Out c registry rest flt Hne Hargs Hreg Hparse.
  unfold searchCmd. rewrite Hargs.
  change (1 <? len [(registry ++ "/" ++ rest)%string]) with false.
  change (len [(registry ++ "/" ++ rest)%string] =? 0) with false.
  cbv iota. rewrite Hreg. apply String.eqb_neq in Hne.
  unfold getRegistries. rewrite Hne. simpl negb. cbv iota.
  change (registry ++ "/" ++ rest)%string
    with (registry ++ String "/" rest)%string.
  rewrite (suffixFrom_append registry rest "/"). simpl run_bind.
  unfold parseSearchFilter. simpl filter. rewrite Hparse. reflexivity.
Qed.

End CommandProperties.

Lemma wrong_argument_count_is_a_usage_error_witness :
  List.length (cliconfig.InputArgs (valuesOf ["alpine"; "busybox"] [] ""))
  <> 1%nat
  /\ searchCmd firstSegment systemRegistries (fun path => path)
       (answering tenResults) rejectingTemplate
       (valuesOf ["alpine"; "busybox"] [] "")
     = Returned (Some ErrTooManyArguments).
Proof.
  split; [discriminate|].
  apply (wrong_argument_count_is_a_usage_error firstSegment systemRegistries
           (fun path => path) (answering tenResults) rejectingTemplate
           (valuesOf ["alpine"; "busybox"] [] "")).
  discriminate.
Defined.

Lemma invalid_filter_stops_the_search_witness :
  searchCmd firstSegment systemRegistries (fun path => path)
    (answering tenResults) rejectingTemplate
    (valuesOf ["alpine"] ["stars=many"] "")
  = searchCmd firstSegment systemRegistries (fun path => path)
      unreachable (fun _ _ => None)
      (valuesOf ["alpine"] ["stars=many"] "")
  /\ searchCmd firstSegment systemRegistries (fun path => path)
       (answering tenResults) rejectingTemplate
       (valuesOf ["alpine"] ["stars=many"] "")
     <> Returned None.
Proof.
  apply (invalid_filter_stops_the_search firstSegment systemRegistries
           (fun path => path) (answering tenResults) unreachable
           rejectingTemplate (fun _ _ => None)
           (valuesOf ["alpine"] ["stars=many"] "")
           (ErrStarsValue strconv.ErrSyntax)).
  reflexivity.
Defined.

Lemma explicit_registry_is_the_only_one_searched_witness :
  searchCmd firstSegment systemRegistries (fun path => path)
    (answering tenResults) (fun _ _ => None)
    (valuesOf ["quay.io/alpine"] ["is-automated"] "")
  = (e <- generateSearchOutput (answering tenResults) (fun _ _ => None)
            "alpine" ["quay.io"]
            (searchOptsOf (fun path => path)
               (valuesOf ["quay.io/alpine"] ["is-automated"] ""))
            (set_isAutomated true emptyFilterParams) ;;
     Returned (option_map ErrSearch e)).
Proof.
  apply (explicit_registry_is_the_only_one_searched firstSegment
           systemRegistries (fun path => path) (answering tenResults)
           (fun _ _ => None)
           (valuesOf ["quay.io/alpine"] ["is-automated"] "")
           "quay.io" "alpine" (set_isAutomated true emptyFilterParams)).
  - discriminate.
  - reflexivity.
  - reflexivity.
  - reflexivity.
Defined.

(** ** podman machine stop *)

Section StopProperties.

Variable defaultMachineName : string.
Variables VM Err : Type.
Variable LoadVMByName : string -> VM + Err.
Variable Stop : VM -> string -> option Err.

(** X23: [stop] loads, stops and reports one and the same machine: the
    one named by the first argument when that is not empty, and the
    default machine otherwise. *)
Theorem stop_acts_on_one_machine :
  forall args : list string,
    Forall
      (fun ev =>
         eventName ev
         = match args with
           | arg :: _ =>
               if String.eqb arg "" then defaultMachineName else arg
           | [] => defaultMachineName
           end)
      (snd (machine.stop defaultMachineName VM Err LoadVMByName Stop args)).
Proof.
  intros args.
  assert (Hname : machine.vmNameOf defaultMachineName args
                  = match args with
                    | arg :: _ =>
                        if String.eqb arg "" then defaultMachineName else arg
                    | [] => defaultMachineName
                    end).
  { destruct args as [|arg args]; [reflexivity|].
    unfold machine.vmNameOf, slen. destruct arg; reflexivity. }
  rewrite <- Hname. unfold machine.stop.
  destruct (LoadVMByName (machine.vmNameOf defaultMachineName args))
    as [vm|e]; simpl.
  - destruct (Stop vm (machine.vmNameOf defaultMachineName args)); simpl;
      repeat constructor.
  - repeat constructor.
Qed.

(** X24: [stop] returns nil exactly when the machine was loaded and then
    stopped without error, and only then prints the message; when loading
    fails the machine is not stopped, and the error returned is the one of
    the step that failed. *)
Theorem stop_reports_success_only_after_stopping :
  forall args : list string,
    let name := machine.vmNameOf defaultMachineName args in
    match machine.stop defaultMachineName VM Err LoadVMByName Stop args with
    | (None, evs) =>
        evs = [machine.EvLoadVMByName name; machine.EvStop name;
               machine.EvPrintStopped name]
        /\ exists vm, LoadVMByName name = inl vm /\ Stop vm name = None
    | (Some e, evs) =>
        (LoadVMByName name = inr e /\ evs = [machine.EvLoadVMByName name])
        \/ (exists vm,
               LoadVMByName name = inl vm /\ Stop vm name = Some e
               /\ evs = [machine.EvLoadVMByName name; machine.EvStop name])
    end.
Proof.
  intros args name. unfold machine.stop. fold name.
  destruct (LoadVMByName name) as [vm|e] eqn:El.
  - destruct (Stop vm name) as [e|] eqn:Es.
    + right. exists vm. now repeat split.
    + split; [reflexivity|]. exists vm. now split.
  - left. now split.
Qed.

End StopProperties.

(** ** The two limits together (lines 169-199) *)

(** X25: for a registry that honours the query limit, that is, answers
    with no more results than it was asked for, the caller's limit never
    becomes the result cap: the cap is [min(25, len(results))], so such a
    registry contributes at most 25 records even when the caller asked for
    more. *)
Theorem honoured_query_limit_caps_at_default :
  forall (opts : searchOpts) (flt : searchFilterParams) (reg : string)
         (results : list docker.SearchResult),
    len results <= queryLimit opts ->
    resultLimit opts results = Z.min maxQueries (len results)
    /\ len (registryRecords opts flt reg results) <= maxQueries.
Proof.
  intros opts flt reg results Hq.
  assert (Hcap : resultLimit opts results = Z.min maxQueries (len results)).
  { rewrite resultLimit_cases.
    destruct (negb (limit opts =? 0) && (limit opts <? len results)) eqn:E;
      [|reflexivity].
    apply andb_true_iff in E. destruct E as [E0 E1].
    apply negb_true_iff in E0. apply Z.ltb_lt in E1.
    unfold queryLimit in Hq. rewrite E0 in Hq. lia. }
  split; [exact Hcap|].
  unfold registryRecords, len. rewrite length_map.
  pose proof (filter_length_le (accepted opts flt)
                (firstn (Z.to_nat (resultLimit opts results)) results)) as H.
  rewrite length_firstn in H. unfold maxQueries, len in *. lia.
Qed.

Lemma honoured_query_limit_caps_at_default_witness :
  len (repeat (sampleResult "alpine" 1) 30)
  <= queryLimit (optionsOf [] 30 false)
  /\ resultLimit (optionsOf [] 30 false) (repeat (sampleResult "alpine" 1) 30)
     = 25.
Proof.
  split; [vm_compute; discriminate|].
  exact (proj1 (honoured_query_limit_caps_at_default (optionsOf [] 30 false)
                  emptyFilterParams "docker.io"
                  (repeat (sampleResult "alpine" 1) 30)
                  ltac:(vm_compute; discriminate))).
Defined.

(** ** Keys that do not occur (lines 250-286) *)

(** X26: when a filter list parses, a key that no expression carries keeps
    its default in the filter set: 0 for the minimum star count, unset for
    the official and the automated filter. *)
Theorem absent_key_keeps_default :
  forall (opts : searchOpts) (k : filterKey) (fp : searchFilterParams),
    (forall e, In e (filter opts) -> exprKey e <> keyName k) ->
    parseSearchFilter opts = Returned (inl fp) ->
    fieldOf k fp = fieldOf k emptyFilterParams.
Proof.
  intros opts k fp Habsent Hparse.
  exact (parseLoop_preserves k (filter opts) emptyFilterParams fp
           Habsent Hparse).
Qed.

Lemma absent_key_keeps_default_witness :
  fieldOf KeyOfficial
    {| stars := 3; isAutomated := Some false; isOfficial := None |}
  = FlagValue None.
Proof.
  apply (absent_key_keeps_default
           (optionsOf ["stars=3"; "is-automated=false"] 0 false) KeyOfficial).
  - intros e [<-|[<-|[]]]; vm_compute; discriminate.
  - reflexivity.
Defined.

(** ** Which hosts count as Docker Hub (lines 184-188 and 221) *)

Lemma Split_append_sep (a b : string) (sep : ascii) :
  strings.Split (a ++ String sep b) sep
  = strings.Split a sep ++ strings.Split b sep.
Proof.
  induction a as [|x a IH]; simpl.
  - now rewrite Ascii.eqb_refl.
  - destruct (Ascii.eqb x sep); rewrite IH; [reflexivity|].
    destruct (strings.Split a sep) as [|w ws] eqn:E;
      [now apply Split_not_nil in E|reflexivity].
Qed.

(** X27: the index label is ["docker.io"], and with it single-segment
    names are rewritten into [docker.io/library/], exactly for the host
    [docker.io] and the hosts that end in [.docker.io]. *)
Theorem docker_hub_hosts :
  forall reg : string,
    indexOf reg = "docker.io"
    <-> reg = "docker.io"
        \/ exists front : string, reg = (front ++ ".docker.io")%string.
Proof.
  intros reg. split.
  - intros H. unfold indexOf, len in H.
    destruct (2 <? Z.of_nat (List.length (strings.Split reg "."))) eqn:E;
      [|now left].
    right. apply Z.ltb_lt in E.
    set (arr := strings.Split reg ".") in *.
    exists (strings.Join (firstn (List.length arr - 2) arr) ".").
    change (".docker.io") with ("." ++ "docker.io")%string.
    rewrite <- H, <- Join_app.
    + rewrite firstn_skipn. subst arr. symmetry. apply Join_Split.
    + intros H0. apply (f_equal (@List.length string)) in H0.
      rewrite length_firstn in H0. simpl in H0. lia.
    + intros H0. apply (f_equal (@List.length string)) in H0.
      rewrite length_skipn in H0. simpl in H0. lia.
  - intros [->|[front ->]]; [reflexivity|].
    unfold indexOf, len.
    change (front ++ ".docker.io")%string
      with (front ++ String "." "docker.io")%string.
    rewrite Split_append_sep.
    change (strings.Split "docker.io" ".") with ["docker"; "io"].
    rewrite length_app. simpl List.length.
    replace (2 <? Z.of_nat (List.length (strings.Split front ".") + 2))
      with true.
    + replace (List.length (strings.Split front ".") + 2 - 2)%nat
        with (List.length (strings.Split front ".") + 0)%nat by lia.
      rewrite skipn_app, skipn_all2 by lia.
      replace (List.length (strings.Split front ".") + 0
               - List.length (strings.Split front "."))%nat
        with 0%nat by lia.
      reflexivity.
    + symmetry. apply Z.ltb_lt.
      pose proof (Split_not_nil front ".") as Hn.
      destruct (strings.Split front "."); [congruence|simpl; lia].
Qed.
